(** * reg-extractor: the [/api/extract] handler of [src/index.ts]

    A shallow embedding of the request handler and of the parts of the
    JavaScript runtime it calls ([String.prototype.match] on the regular
    expression literal, [JSON.parse], property reads, [Array.prototype.map]),
    followed by the properties of the response-normalization pipeline. *)

From Stdlib Require Import List Bool Arith Lia NArith ZArith Ascii String.
From Stdlib Require DecimalNat.
Import ListNotations.

Set Warnings "-register-all".

(** ** JavaScript strings

    A JavaScript string is a sequence of 16-bit code units. *)

Definition char16 := N.
Definition jsstring := list char16.

Definition unit_of_ascii (a : ascii) : char16 := N_of_ascii a.

(** [lit s] is the JavaScript string with the characters of the ASCII
    literal [s]. *)
Definition lit (s : string) : jsstring := map unit_of_ascii (list_ascii_of_string s).

(** [jq s] is [lit s] with every apostrophe turned into a double quote (code
    unit 34), to write JSON texts legibly. *)
Definition jq (s : string) : jsstring :=
  map (fun c => if N.eqb c 39 then 34%N else c) (lit s).

Fixpoint str_eqb (a b : jsstring) : bool :=
  match a, b with
  | [], [] => true
  | x :: a', y :: b' => N.eqb x y && str_eqb a' b'
  | _, _ => false
  end.

Definition lbrace : char16 := 123%N.
Definition rbrace : char16 := 125%N.

(** ** The regular expression of line 102: [/\{[\s\S]*\}/]

    The fragment of ECMAScript patterns the literal uses: a sequence of terms,
    each a character set or a greedy star of a character set, matched by
    backtracking. *)

Module RegExp.

Inductive cset :=
| CChar (c : char16)        (* an escaped or plain pattern character *)
| CSpace                    (* \s *)
| CNotSpace                 (* \S *)
| CUnion (a b : cset).      (* a class [ab] *)

Inductive term :=
| One (cs : cset)
| Star (cs : cset).         (* greedy * *)

Definition pattern := list term.

(** WhiteSpace and LineTerminator code units, the members of [\s]. *)
Definition is_space (c : char16) : bool :=
  existsb (N.eqb c)
    [9; 10; 11; 12; 13; 32; 160; 5760; 8232; 8233; 8239; 8287; 12288; 65279]%N
  || (N.leb 8192 c && N.leb c 8202).

Fixpoint accepts (cs : cset) (c : char16) : bool :=
  match cs with
  | CChar d => N.eqb c d
  | CSpace => is_space c
  | CNotSpace => negb (is_space c)
  | CUnion a b => accepts a c || accepts b c
  end.

(** [star cs k s]: the greedy star takes as many units of [cs] as it can and
    gives units back one at a time until the continuation [k] matches; the
    result is the number of units matched by the star and the continuation. *)
Fixpoint star (cs : cset) (k : jsstring -> option nat) (s : jsstring) : option nat :=
  match s with
  | [] => k []
  | c :: s' =>
      if accepts cs c then
        match star cs k s' with
        | Some n => Some (S n)
        | None => k s
        end
      else k s
  end.

(** [match_here p s]: the number of units of a match of [p] that starts at the
    head of [s], if there is one. *)
Fixpoint match_here (p : pattern) (s : jsstring) : option nat :=
  match p with
  | [] => Some 0
  | One cs :: p' =>
      match s with
      | c :: s' => if accepts cs c then option_map S (match_here p' s') else None
      | [] => None
      end
  | Star cs :: p' => star cs (match_here p') s
  end.

(** [scan p s i]: the leftmost match in [s], whose head is at index [i] of
    the subject: its index and its text. *)
Fixpoint scan (p : pattern) (s : jsstring) (i : nat) : option (nat * jsstring) :=
  match match_here p s with
  | Some n => Some (i, firstn n s)
  | None =>
      match s with
      | [] => None
      | _ :: s' => scan p s' (S i)
      end
  end.

(** A RegExp object: its pattern, its [g] and [y] flags, and the mutable
    [lastIndex] property. *)
Record t := mk {
  source : pattern;
  global : bool;
  sticky : bool;
  lastIndex : nat
}.

Definition set_lastIndex (i : nat) (R : t) : t :=
  mk (source R) (global R) (sticky R) i.

(** RegExpBuiltinExec: the match (index and text) and the object afterwards.
    Without [g] and [y] the search starts at 0 and [lastIndex] is not
    written. *)
Definition exec (R : t) (subject : jsstring) : option (nat * jsstring) * t :=
  let tracked := global R || sticky R in
  let start := if tracked then lastIndex R else 0 in
  let fail := if tracked then set_lastIndex 0 R else R in
  if List.length subject <? start then (None, fail)
  else
    let rest := skipn start subject in
    let found :=
      if sticky R
      then option_map (fun n => (start, firstn n rest)) (match_here (source R) rest)
      else scan (source R) rest start in
    match found with
    | None => (None, fail)
    | Some (i, m) =>
        (Some (i, m), if tracked then set_lastIndex (i + List.length m) R else R)
    end.

(** [RegExp.prototype[Symbol.match]], as far as element 0 of its result goes.
    Without [g] it is [exec].  With [g] it sets [lastIndex] to 0 and calls
    [exec] until it fails, which leaves [lastIndex] at 0; element 0 of the
    array it returns is the text of the first of these matches. *)
Definition symbol_match (R : t) (subject : jsstring) : option jsstring * t :=
  if global R then
    let (r, _) := exec (set_lastIndex 0 R) subject in
    (option_map snd r, set_lastIndex 0 R)
  else
    let (r, R') := exec R subject in (option_map snd r, R').

(** The literal [/\{[\s\S]*\}/]: evaluating it creates a RegExp object with
    no flags and [lastIndex] 0. *)
Definition any_unit : cset := CUnion CSpace CNotSpace.

Definition brace_pattern : pattern :=
  [One (CChar lbrace); Star any_unit; One (CChar rbrace)].

Definition brace_regex : t := mk brace_pattern false false 0.

(** The same object after something has set its [lastIndex] to [i]. *)
Definition brace_regex_at (i : nat) : t := set_lastIndex i brace_regex.

End RegExp.

(** [text.match(/\{[\s\S]*\}/)] on a string [text]: [Some jsonMatch[0]], or
    [None] for [null]. *)
Definition json_match (text : jsstring) : option jsstring :=
  fst (RegExp.symbol_match RegExp.brace_regex text).

(** ** JavaScript values

    The values [JSON.parse] and [response.json()] produce, and [undefined],
    the value of a property that is not there. *)

(** A number as its decimal literal denotes it: [mant * 10 ^ exp10], negated
    when [neg].  The Number value is this real rounded to a double; the
    handler observes a number only through its truthiness. *)
Record JSNum := mkNum {
  neg : bool;
  mant : N;
  exp10 : Z
}.

Inductive JSValue :=
| JUndefined
| JNull
| JBool (b : bool)
| JNumber (n : JSNum)
| JString (s : jsstring)
| JArray (items : list JSValue)
| JObject (members : list (jsstring * JSValue)).

(** Own properties of an object, in insertion order, one entry per key. *)
Definition members := list (jsstring * JSValue).

Fixpoint lookup (k : jsstring) (ms : members) : JSValue :=
  match ms with
  | [] => JUndefined
  | (k', v) :: ms' => if str_eqb k k' then v else lookup k ms'
  end.

(** CreateDataProperty: a key that is already there keeps its place and takes
    the new value. *)
Fixpoint set_member (k : jsstring) (v : JSValue) (ms : members) : members :=
  match ms with
  | [] => [(k, v)]
  | (k', v') :: ms' =>
      if str_eqb k k' then (k', v) :: ms' else (k', v') :: set_member k v ms'
  end.

(** A decimal rounds to zero (round to nearest, ties to even) when it is 0 or
    at most half the least subnormal double, 2^-1075. *)
Definition num_is_zero (n : JSNum) : bool :=
  N.eqb (mant n) 0
  || (Z.ltb (exp10 n) 0
      && Z.leb (Z.of_N (mant n) * 2 ^ 1075) (10 ^ (- exp10 n))).

(** ToBoolean. *)
Definition to_boolean (v : JSValue) : bool :=
  match v with
  | JUndefined | JNull => false
  | JBool b => b
  | JNumber n => negb (num_is_zero n)
  | JString s => match s with [] => false | _ => true end
  | JArray _ | JObject _ => true
  end.

Definition is_nullish (v : JSValue) : bool :=
  match v with
  | JUndefined | JNull => true
  | _ => false
  end.

(** [a ?? b] *)
Definition coalesce (a b : JSValue) : JSValue := if is_nullish a then b else a.

(** [v === s] for a string literal [s]. *)
Definition strict_eq_str (v : JSValue) (s : jsstring) : bool :=
  match v with
  | JString t => str_eqb t s
  | _ => false
  end.

(** ** Exceptions *)

(** Error objects.  The text of the [message] of an error the engine raises
    is implementation-defined, so an engine error is kept as what raised it. *)
Inductive JSError :=
| SyntaxError_JSON (text : jsstring)              (* JSON.parse rejects text *)
| TypeError_read (base : JSValue) (key : jsstring)  (* base.key, base nullish *)
| TypeError_call (method : jsstring)              (* x.method is not a function *)
| HostError (message : jsstring).                 (* raised by fetch or response.json() *)

Inductive Thrown :=
| ThrowError (e : JSError)      (* an instance of Error *)
| ThrowValue (v : JSValue).     (* anything else *)

(** Computations that may throw. *)
Definition M (A : Type) := (Thrown + A)%type.

Definition ret {A} (a : A) : M A := inr a.
Definition throw {A} (e : JSError) : M A := inl (ThrowError e).
Definition bind {A B} (m : M A) (f : A -> M B) : M B :=
  match m with
  | inl t => inl t
  | inr a => f a
  end.

Notation "x <- m ;; k" := (bind m (fun x => k))
  (at level 61, m at next level, right associativity).

(** ** Property reads

    [v.k] for the names the handler reads ([image], [error], [message],
    [choices], [content], [results], [type], [value], [uncertain]).  None of
    them is a property of [Object.prototype], [Array.prototype],
    [String.prototype], [Number.prototype] or [Boolean.prototype], so a read
    that finds no own property gives [undefined]. *)
Definition get_prop (v : JSValue) (k : jsstring) : M JSValue :=
  match v with
  | JUndefined | JNull => throw (TypeError_read v k)
  | JObject ms => ret (lookup k ms)
  | _ => ret JUndefined
  end.

(** [v?.k] *)
Definition opt_prop (v : JSValue) (k : jsstring) : M JSValue :=
  if is_nullish v then ret JUndefined else get_prop v k.

(** [v?.[0]]: element 0 of an array, the first code unit of a string, the
    own property ["0"] of an object. *)
Definition opt_elem0 (v : JSValue) : M JSValue :=
  match v with
  | JUndefined | JNull => ret JUndefined
  | JArray items => ret (nth 0 items JUndefined)
  | JString s => ret (match s with [] => JUndefined | c :: _ => JString [c] end)
  | JObject ms => ret (lookup (lit "0") ms)
  | _ => ret JUndefined
  end.

(** ** [JSON.parse]

    The JSON grammar of ECMA-262 (24.5.1), read one code unit at a time: a
    lexer whose state says which token it is inside of, then a parser over
    the tokens that keeps the open arrays and objects on a stack.  Both are
    total: every text is either a JSON text with one value or a syntax
    error. *)

Module JSON.

Inductive token :=
| TLBrace | TRBrace | TLBracket | TRBracket | TColon | TComma
| TStr (s : jsstring)
| TNum (n : JSNum)
| TTrue | TFalse | TNull.

(** Where the lexer is inside a number: an optional minus, then 0 or a
    digit 1-9 and more digits, then optionally a dot and one or more digits,
    then optionally e or E, an optional sign and one or more digits. *)
Inductive numphase :=
| NMinus      (* after -: a digit must follow *)
| NZero       (* after the single integer digit 0 *)
| NInt        (* in the integer digits *)
| NDot        (* after .: a digit must follow *)
| NFrac       (* in the fraction digits *)
| NE          (* after e or E: a sign or a digit must follow *)
| NESign      (* after the sign of the exponent: a digit must follow *)
| NExp.       (* in the exponent digits *)

(** The number read so far: sign, the digits of the integer and the fraction
    as one natural number, how many of them are fraction digits, the sign and
    the digits of the exponent. *)
Record numacc := mkAcc {
  a_neg : bool;
  a_mant : N;
  a_frac : N;
  a_eneg : bool;
  a_exp : N
}.

Definition num_of_acc (a : numacc) : JSNum :=
  mkNum (a_neg a) (a_mant a)
        ((if a_eneg a then - Z.of_N (a_exp a) else Z.of_N (a_exp a)) - Z.of_N (a_frac a)).

Inductive lstate :=
| LStart                                          (* between tokens *)
| LStr (acc : jsstring)                           (* in a string; acc is reversed *)
| LEsc (acc : jsstring)                           (* after a backslash *)
| LUni (acc : jsstring) (todo : nat) (code : N)   (* in the digits of \uXXXX *)
| LWord (rest : jsstring) (t : token)             (* in true, false or null *)
| LNum (ph : numphase) (a : numacc).

Definition is_ws (c : char16) : bool :=
  N.eqb c 9 || N.eqb c 10 || N.eqb c 13 || N.eqb c 32.

Definition digit (c : char16) : option N :=
  if N.leb 48 c && N.leb c 57 then Some (c - 48)%N else None.

Definition hex_digit (c : char16) : option N :=
  if N.leb 48 c && N.leb c 57 then Some (c - 48)%N
  else if N.leb 65 c && N.leb c 70 then Some (c - 55)%N
  else if N.leb 97 c && N.leb c 102 then Some (c - 87)%N
  else None.

(** The first code unit of a token. *)
Definition start_step (c : char16) : option (list token * lstate) :=
  if is_ws c then Some ([], LStart)
  else if N.eqb c 123 then Some ([TLBrace], LStart)
  else if N.eqb c 125 then Some ([TRBrace], LStart)
  else if N.eqb c 91 then Some ([TLBracket], LStart)
  else if N.eqb c 93 then Some ([TRBracket], LStart)
  else if N.eqb c 58 then Some ([TColon], LStart)
  else if N.eqb c 44 then Some ([TComma], LStart)
  else if N.eqb c 34 then Some ([], LStr [])
  else if N.eqb c 45 then Some ([], LNum NMinus (mkAcc true 0 0 false 0))
  else if N.eqb c 48 then Some ([], LNum NZero (mkAcc false 0 0 false 0))
  else if N.eqb c 116 then Some ([], LWord (lit "rue") TTrue)
  else if N.eqb c 102 then Some ([], LWord (lit "alse") TFalse)
  else if N.eqb c 110 then Some ([], LWord (lit "ull") TNull)
  else match digit c with
       | Some d => Some ([], LNum NInt (mkAcc false d 0 false 0))
       | None => None
       end.

Definition push_int (d : N) (a : numacc) : numacc :=
  mkAcc (a_neg a) (10 * a_mant a + d) (a_frac a) (a_eneg a) (a_exp a).
Definition push_frac (d : N) (a : numacc) : numacc :=
  mkAcc (a_neg a) (10 * a_mant a + d) (a_frac a + 1) (a_eneg a) (a_exp a).
Definition push_exp (d : N) (a : numacc) : numacc :=
  mkAcc (a_neg a) (a_mant a) (a_frac a) (a_eneg a) (10 * a_exp a + d).
Definition set_eneg (a : numacc) : numacc :=
  mkAcc (a_neg a) (a_mant a) (a_frac a) true (a_exp a).

Definition is_e (c : char16) : bool := N.eqb c 101 || N.eqb c 69.

(** A number that may end here ends, and [c] starts the next token. *)
Definition end_number (a : numacc) (c : char16) : option (list token * lstate) :=
  match start_step c with
  | Some (ts, st) => Some (TNum (num_of_acc a) :: ts, st)
  | None => None
  end.

Definition num_step (ph : numphase) (a : numacc) (c : char16)
  : option (list token * lstate) :=
  match ph with
  | NMinus =>
      match digit c with
      | Some d => Some ([], LNum (if N.eqb d 0 then NZero else NInt) (push_int d a))
      | None => None
      end
  | NZero =>
      if N.eqb c 46 then Some ([], LNum NDot a)
      else if is_e c then Some ([], LNum NE a)
      else end_number a c
  | NInt =>
      match digit c with
      | Some d => Some ([], LNum NInt (push_int d a))
      | None =>
          if N.eqb c 46 then Some ([], LNum NDot a)
          else if is_e c then Some ([], LNum NE a)
          else end_number a c
      end
  | NDot =>
      match digit c with
      | Some d => Some ([], LNum NFrac (push_frac d a))
      | None => None
      end
  | NFrac =>
      match digit c with
      | Some d => Some ([], LNum NFrac (push_frac d a))
      | None => if is_e c then Some ([], LNum NE a) else end_number a c
      end
  | NE =>
      match digit c with
      | Some d => Some ([], LNum NExp (push_exp d a))
      | None =>
          if N.eqb c 43 then Some ([], LNum NESign a)
          else if N.eqb c 45 then Some ([], LNum NESign (set_eneg a))
          else None
      end
  | NESign =>
      match digit c with
      | Some d => Some ([], LNum NExp (push_exp d a))
      | None => None
      end
  | NExp =>
      match digit c with
      | Some d => Some ([], LNum NExp (push_exp d a))
      | None => end_number a c
      end
  end.

(** The code unit an escape [\c] stands for. *)
Definition escape (c : char16) : option char16 :=
  if N.eqb c 34 then Some 34%N            (* quote *)
  else if N.eqb c 92 then Some 92%N       (* backslash *)
  else if N.eqb c 47 then Some 47%N       (* slash *)
  else if N.eqb c 98 then Some 8%N        (* backspace *)
  else if N.eqb c 102 then Some 12%N      (* form feed *)
  else if N.eqb c 110 then Some 10%N      (* line feed *)
  else if N.eqb c 114 then Some 13%N      (* carriage return *)
  else if N.eqb c 116 then Some 9%N       (* tab *)
  else None.

Definition lex_step (st : lstate) (c : char16) : option (list token * lstate) :=
  match st with
  | LStart => start_step c
  | LStr acc =>
      if N.eqb c 34 then Some ([TStr (rev acc)], LStart)
      else if N.eqb c 92 then Some ([], LEsc acc)
      else if N.ltb c 32 then None
      else Some ([], LStr (c :: acc))
  | LEsc acc =>
      if N.eqb c 117 then Some ([], LUni acc 4 0%N)
      else match escape c with
           | Some u => Some ([], LStr (u :: acc))
           | None => None
           end
  | LUni acc todo code =>
      match hex_digit c with
      | Some d =>
          let code' := (16 * code + d)%N in
          match todo with
          | 0 | 1 => Some ([], LStr (code' :: acc))
          | S todo' => Some ([], LUni acc todo' code')
          end
      | None => None
      end
  | LWord rest t =>
      match rest with
      | [] => None
      | r :: rest' =>
          if N.eqb c r
          then match rest' with
               | [] => Some ([t], LStart)
               | _ => Some ([], LWord rest' t)
               end
          else None
      end
  | LNum ph a => num_step ph a c
  end.

(** The end of the text. *)
Definition lex_end (st : lstate) : option (list token) :=
  match st with
  | LStart => Some []
  | LNum (NZero | NInt | NFrac | NExp) a => Some [TNum (num_of_acc a)]
  | _ => None
  end.

Fixpoint lex (st : lstate) (s : jsstring) : option (list token) :=
  match s with
  | [] => lex_end st
  | c :: s' =>
      match lex_step st c with
      | None => None
      | Some (ts, st') =>
          match lex st' s' with
          | None => None
          | Some rest => Some (ts ++ rest)
          end
      end
  end.

(** An open array with its elements so far (reversed), or an open object with
    its members so far and the key whose value is awaited. *)
Inductive frame :=
| FArr (items : list JSValue)
| FObj (ms : members) (key : option jsstring).

(** What the grammar allows next. *)
Inductive mode :=
| MValue        (* a value: at the start, after a colon, after a comma in an array *)
| MArrFirst     (* after [: a value or ] *)
| MObjFirst     (* after {: a key or } *)
| MKey          (* after a comma in an object: a key *)
| MColon        (* after a key: a colon *)
| MAfter        (* after a value inside an array or object: a comma or the closing bracket *)
| MDone (v : JSValue).   (* the value of the text is complete *)

Definition pstate := (list frame * mode)%type.

(** A value is complete: it is the value of the text, the next element of
    the innermost open array, or the value of the awaited key. *)
Definition push_value (st : list frame) (v : JSValue) : option pstate :=
  match st with
  | [] => Some ([], MDone v)
  | FArr items :: st' => Some (FArr (v :: items) :: st', MAfter)
  | FObj ms (Some k) :: st' => Some (FObj (set_member k v ms) None :: st', MAfter)
  | FObj _ None :: _ => None
  end.

Definition close_array (st : list frame) : option pstate :=
  match st with
  | FArr items :: st' => push_value st' (JArray (rev items))
  | _ => None
  end.

Definition close_object (st : list frame) : option pstate :=
  match st with
  | FObj ms None :: st' => push_value st' (JObject ms)
  | _ => None
  end.

Definition value_step (st : list frame) (t : token) : option pstate :=
  match t with
  | TNull => push_value st JNull
  | TTrue => push_value st (JBool true)
  | TFalse => push_value st (JBool false)
  | TNum n => push_value st (JNumber n)
  | TStr s => push_value st (JString s)
  | TLBracket => Some (FArr [] :: st, MArrFirst)
  | TLBrace => Some (FObj [] None :: st, MObjFirst)
  | _ => None
  end.

Definition key_step (st : list frame) (t : token) : option pstate :=
  match t, st with
  | TStr k, FObj ms None :: st' => Some (FObj ms (Some k) :: st', MColon)
  | _, _ => None
  end.

Definition parse_step (ps : pstate) (t : token) : option pstate :=
  let (st, m) := ps in
  match m with
  | MValue => value_step st t
  | MArrFirst =>
      match t with
      | TRBracket => close_array st
      | _ => value_step st t
      end
  | MObjFirst =>
      match t with
      | TRBrace => close_object st
      | _ => key_step st t
      end
  | MKey => key_step st t
  | MColon =>
      match t with
      | TColon => Some (st, MValue)
      | _ => None
      end
  | MAfter =>
      match t, st with
      | TComma, FArr _ :: _ => Some (st, MValue)
      | TComma, FObj _ _ :: _ => Some (st, MKey)
      | TRBracket, _ => close_array st
      | TRBrace, _ => close_object st
      | _, _ => None
      end
  | MDone _ => None
  end.

Fixpoint parse_tokens (ps : pstate) (ts : list token) : option JSValue :=
  match ts with
  | [] =>
      match ps with
      | ([], MDone v) => Some v
      | _ => None
      end
  | t :: ts' =>
      match parse_step ps t with
      | None => None
      | Some ps' => parse_tokens ps' ts'
      end
  end.

(** [JSON.parse(text)] for a string [text], without a reviver. *)
Definition parse (text : jsstring) : M JSValue :=
  match lex LStart text with
  | None => throw (SyntaxError_JSON text)
  | Some ts =>
      match parse_tokens ([], MValue) ts with
      | None => throw (SyntaxError_JSON text)
      | Some v => ret v
      end
  end.

(** The outermost open container is an object. *)
Inductive object_at_bottom : list frame -> Prop :=
| bottom_here (ms : members) (k : option jsstring) : object_at_bottom [FObj ms k]
| bottom_below (f : frame) (st : list frame) :
    object_at_bottom st -> object_at_bottom (f :: st).

(** The invariant of the token parser once the first token was an opening
    brace: that object is still open, or it is the value of the text. *)
Definition object_pending (ps : pstate) : Prop :=
  object_at_bottom (fst ps) \/ exists ms, ps = ([], MDone (JObject ms)).

End JSON.

(** ** The handler of [POST /api/extract] (lines 42-120) *)

(** [ExtractResult] as the handler builds it: [type] is one of the two
    literals; [value] is the element's [value] or, when that is undefined or
    null, the empty string: a string only if the upstream sent a string;
    [uncertain] is a boolean. *)
Inductive Kind := reg | vin.

Record ExtractResult := mkResult {
  type : Kind;
  value : JSValue;
  uncertain : bool
}.

(** The [error] field of an error body: a value, or the [message] of a caught
    error. *)
Inductive ErrorText :=
| Str (v : JSValue)
| MessageOf (e : JSError).

Inductive Body :=
| ErrorBody (error : ErrorText)             (* { error } *)
| ResultsBody (results : list ExtractResult).   (* { results } *)

Record Reply := reply {
  status : nat;
  body : Body
}.

(** What the handler's promise comes to: a response was sent, or the promise
    is rejected with no response sent by the handler. *)
Inductive Outcome :=
| Replied (r : Reply)
| Rejected (t : Thrown).

(** The upstream response as the handler reads it: [response.ok],
    [response.status] and what [response.json()] settles to. *)
Record Response := mkResponse {
  ok : bool;
  http_status : nat;
  json : M JSValue
}.

(** [fetch] of the completions endpoint: all of the request is fixed but the
    key in the Authorization header and the image; the promise resolves to a
    response or is rejected. *)
Definition Fetch := jsstring -> JSValue -> M Response.

Fixpoint uint_units (d : Decimal.uint) : jsstring :=
  match d with
  | Decimal.Nil => []
  | Decimal.D0 d' => 48%N :: uint_units d'
  | Decimal.D1 d' => 49%N :: uint_units d'
  | Decimal.D2 d' => 50%N :: uint_units d'
  | Decimal.D3 d' => 51%N :: uint_units d'
  | Decimal.D4 d' => 52%N :: uint_units d'
  | Decimal.D5 d' => 53%N :: uint_units d'
  | Decimal.D6 d' => 54%N :: uint_units d'
  | Decimal.D7 d' => 55%N :: uint_units d'
  | Decimal.D8 d' => 56%N :: uint_units d'
  | Decimal.D9 d' => 57%N :: uint_units d'
  end.

(** A status code in a template literal. *)
Definition decimal (n : nat) : jsstring := uint_units (Nat.to_uint n).

(** The callback of [map] (lines 109-113). *)
Definition coerce (r : JSValue) : M ExtractResult :=
  t <- get_prop r (lit "type") ;;
  v <- get_prop r (lit "value") ;;
  u <- get_prop r (lit "uncertain") ;;
  ret (mkResult (if strict_eq_str t (lit "vin") then vin else reg)
                (coalesce v (JString []))
                (to_boolean u)).

(** [Array.prototype.map]: the callback runs on the elements from left to
    right, and what it throws ends the call. *)
Fixpoint array_map {A} (f : JSValue -> M A) (items : list JSValue) : M (list A) :=
  match items with
  | [] => ret []
  | x :: items' =>
      y <- f x ;;
      ys <- array_map f items' ;;
      ret (y :: ys)
  end.

(** [recv.map(f)]: only an array has a callable [map] among the values
    [JSON.parse] produces. *)
Definition call_map {A} (recv : JSValue) (f : JSValue -> M A) : M (list A) :=
  match recv with
  | JArray items => array_map f items
  | JUndefined | JNull => throw (TypeError_read recv (lit "map"))
  | _ => throw (TypeError_call (lit "map"))
  end.

(** [text.match(R)] for a RegExp object [R]: only a string has a callable
    [match]; the call goes to [R[Symbol.match]], which may write to [R]. *)
Definition call_match (R : RegExp.t) (text : JSValue) : M (option jsstring) * RegExp.t :=
  match text with
  | JString s => let (m, R') := RegExp.symbol_match R s in (ret m, R')
  | JUndefined | JNull => (throw (TypeError_read text (lit "match")), R)
  | _ => (throw (TypeError_call (lit "match")), R)
  end.

Definition parse_failure : Reply :=
  reply 502 (ErrorBody (Str (JString (lit "Could not parse response from Claude.")))).

(** [(parsed.results ?? [])] of lines 108-109, for the matched text. *)
Definition results_of (m : jsstring) : M JSValue :=
  parsed <- JSON.parse m ;;
  field <- get_prop parsed (lit "results") ;;
  ret (coalesce field (JArray [])).

(** Lines 103-115, from [jsonMatch] to the response. *)
Definition after_match (jsonMatch : option jsstring) : M Reply :=
  match jsonMatch with
  | None => ret parse_failure
  | Some m =>
      recv <- results_of m ;;
      results <- call_map recv coerce ;;
      ret (reply 200 (ResultsBody results))
  end.

(** Lines 102-115 with the RegExp object [R] for the one the literal makes:
    the response, and [R] afterwards. *)
Definition normalize_with (R : RegExp.t) (text : JSValue) : M Reply * RegExp.t :=
  let (jsonMatch, R') := call_match R text in
  (m <- jsonMatch ;; after_match m, R').

(** Lines 102-115, from [text] to the response: each run evaluates the
    literal, which makes a new RegExp object. *)
Definition normalize (text : JSValue) : M Reply :=
  fst (normalize_with RegExp.brace_regex text).

(** Line 100: [data.choices?.[0]?.message?.content], or the empty string
    when that is undefined or null. *)
Definition reply_text (data : JSValue) : M JSValue :=
  choices <- get_prop data (lit "choices") ;;
  choice <- opt_elem0 choices ;;
  message <- opt_prop choice (lit "message") ;;
  content <- opt_prop message (lit "content") ;;
  ret (coalesce content (JString [])).

(** The body of [try] (lines 62-115). *)
Definition extract (apiKey : jsstring) (image : JSValue) (fetch : Fetch) : M Reply :=
  response <- fetch apiKey image ;;
  if negb (ok response) then
    let err := match json response with
               | inr v => v
               | inl _ => JObject []
               end in
    e <- get_prop err (lit "error") ;;
    message <- opt_prop e (lit "message") ;;
    let msg := coalesce message
                 (JString (lit "OpenRouter API error: " ++ decimal (http_status response))) in
    ret (reply 502 (ErrorBody (Str msg)))
  else
    data <- json response ;;
    text <- reply_text data ;;
    normalize text.

(** The [catch] clause (lines 116-119). *)
Definition catch (r : M Reply) : Reply :=
  match r with
  | inr r => r
  | inl (ThrowError e) => reply 500 (ErrorBody (MessageOf e))
  | inl (ThrowValue _) => reply 500 (ErrorBody (Str (JString (lit "Unknown error"))))
  end.

Definition misconfiguration : Reply :=
  reply 500 (ErrorBody (Str (JString (lit "Server misconfiguration: missing API key")))).

Definition missing_image : Reply :=
  reply 400 (ErrorBody (Str (JString (lit "Missing 'image' field (expected a data URL)")))).

(** The handler: [env_key] is [process.env.OPENROUTER_API_KEY], a string or
    undefined, and [!apiKey] holds of undefined and of the empty string;
    [req_body] is [req.body], whose destructuring is outside [try]. *)
Definition handler (env_key : option jsstring) (req_body : JSValue) (fetch : Fetch)
  : Outcome :=
  match env_key with
  | None | Some [] => Replied misconfiguration
  | Some apiKey =>
      match get_prop req_body (lit "image") with
      | inl t => Rejected t
      | inr image =>
          if negb (to_boolean image) then Replied missing_image
          else Replied (catch (extract apiKey image fetch))
      end
  end.

(** The request gets as far as line 102 with the string [text]: the key and
    the image are there, the upstream answers with a success status and a
    body whose first choice has [text] as its content (or has no content,
    for the empty [text]). *)
Definition reaches_normalizer (env_key : option jsstring) (req_body : JSValue)
    (fetch : Fetch) (text : jsstring) : Prop :=
  exists apiKey image response data,
    env_key = Some apiKey /\ apiKey <> [] /\
    get_prop req_body (lit "image") = inr image /\ to_boolean image = true /\
    fetch apiKey image = inr response /\ ok response = true /\
    json response = inr data /\ reply_text data = inr (JString text).

(** The matched text is a JSON text. *)
Definition valid_json (m : jsstring) : bool :=
  match JSON.parse m with
  | inr _ => true
  | inl _ => false
  end.

(** ** The brace span, in the words of the specification

    The span from the first opening brace of the text to the last closing
    brace of the text, when the one comes before the other. *)

Fixpoint first_index (c : char16) (s : jsstring) : option nat :=
  match s with
  | [] => None
  | x :: s' => if N.eqb x c then Some 0 else option_map S (first_index c s')
  end.

Fixpoint last_index (c : char16) (s : jsstring) : option nat :=
  match s with
  | [] => None
  | x :: s' =>
      match last_index c s' with
      | Some j => Some (S j)
      | None => if N.eqb x c then Some 0 else None
      end
  end.

Definition brace_span (text : jsstring) : option jsstring :=
  match first_index lbrace text, last_index rbrace text with
  | Some i, Some j =>
      if i <? j then Some (firstn (j + 1 - i) (skipn i text)) else None
  | _, _ => None
  end.

(** A brace-delimited region: an opening brace with a closing brace somewhere
    after it. *)
Definition has_brace_region (text : jsstring) : Prop :=
  exists a b c, text = a ++ lbrace :: b ++ rbrace :: c.

(** An element of a parsed array that is neither null nor undefined. *)
Definition not_null (r : JSValue) : Prop := is_nullish r = false.

(** ** A request and an upstream for the examples *)

(** A request body with an image. *)
Definition image_body : JSValue :=
  JObject [(lit "image", JString (lit "data:image/png;base64,iVBORw0KGgo="))].

(** A completion body whose first choice has [content] as its content. *)
Definition completion (content : JSValue) : JSValue :=
  JObject [(lit "choices",
            JArray [JObject [(lit "message", JObject [(lit "content", content)])]])].

(** An upstream that answers every request with status 200 and [text]. *)
Definition upstream_says (text : jsstring) : Fetch :=
  fun _ _ => ret (mkResponse true 200 (ret (completion (JString text)))).

Definition some_key : option jsstring := Some (lit "sk-or-v1-0123").

(** The literal of a kind, as the upstream is told to write it. *)
Definition kind_literal (k : Kind) : jsstring :=
  match k with
  | reg => lit "reg"
  | vin => lit "vin"
  end.

(** The reply of the specification's example, and replies around it. *)
Definition reply_one_plate : jsstring :=
  jq "{'results':[{'type':'reg','value':'AB12 CDE','uncertain':false}]}".

Definition prose_before : jsstring := lit "Here is what I found in the image: ".
Definition prose_after : jsstring := lit " Let me know if you need anything else.".

Definition reply_braces_in_prose : jsstring :=
  lit "Plates {front and rear}: " ++ reply_one_plate.

Definition reply_results_not_array : jsstring := jq "{'results': 'none'}".

Definition reply_no_results : jsstring := jq "{'note': 'no plates found'}".

Definition reply_mixed : jsstring :=
  jq "{'results':[{'type':'vin','value':'1HGCM82633A004352'},{'type':'unknown','value':'AB12 CDE','uncertain':1},{'uncertain':''}]}".

Definition mixed_elements : list JSValue :=
  [JObject [(lit "type", JString (lit "vin"));
            (lit "value", JString (lit "1HGCM82633A004352"))];
   JObject [(lit "type", JString (lit "unknown"));
            (lit "value", JString (lit "AB12 CDE"));
            (lit "uncertain", JNumber (mkNum false 1 0))];
   JObject [(lit "uncertain", JString [])]].

Definition reply_vin_then_null : jsstring :=
  jq "{'results':[{'type':'vin','value':'1HGCM82633A004352'},null]}".

Definition reply_null_only : jsstring := jq "{'results':[null]}".

Definition reply_null_between : jsstring :=
  jq "{'results':[{'type':'reg','value':'AB12 CDE'},null,{'type':'reg','value':'A123 BCD'}]}".

(** ** The rest of the handler: names for its conditions and more examples *)

(** The two tests before [try] pass (lines 49-59): the key is a non-empty
    string and the body has a truthy [image]. *)
Definition passes_checks (env_key : option jsstring) (req_body : JSValue)
    (apiKey : jsstring) (image : JSValue) : Prop :=
  env_key = Some apiKey /\ apiKey <> [] /\
  get_prop req_body (lit "image") = inr image /\ to_boolean image = true.

(** The object literal the callback of [map] returns (lines 109-113), of
    which [ExtractResult] keeps the three values. *)
Definition to_object (e : ExtractResult) : JSValue :=
  JObject [(lit "type", JString (kind_literal (type e)));
           (lit "value", value e);
           (lit "uncertain", JBool (uncertain e))].

(** The record of an element with none of the three fields. *)
Definition default_record : ExtractResult := mkResult reg (JString []) false.

(** A value with no own properties of its own to read: a boolean, a number,
    a string or an array. *)
Definition no_fields (r : JSValue) : bool :=
  match r with
  | JBool _ | JNumber _ | JString _ | JArray _ => true
  | _ => false
  end.

(** An upstream that answers with the failure status [code] and a body that
    [response.json()] settles to [body]. *)
Definition upstream_fails (code : nat) (body : M JSValue) : Fetch :=
  fun _ _ => ret (mkResponse false code body).

(** An upstream that answers 200 with the JSON body [data]. *)
Definition upstream_body (data : M JSValue) : Fetch :=
  fun _ _ => ret (mkResponse true 200 data).

(** An upstream that cannot be reached: the promise of [fetch] is rejected. *)
Definition upstream_down (t : Thrown) : Fetch := fun _ _ => inl t.


Definition the_key : jsstring := lit "sk-or-v1-0123".
Definition the_image : JSValue := JString (lit "data:image/png;base64,iVBORw0KGgo=").

(** ** The runs of the lexer and of the token parser

    The lexer after a prefix of the text: the tokens so far and the state it
    is in; the token parser after a prefix of the tokens. *)

Fixpoint lex_run (st : JSON.lstate) (s : jsstring)
  : option (list JSON.token * JSON.lstate) :=
  match s with
  | [] => Some ([], st)
  | c :: s' =>
      match JSON.lex_step st c with
      | None => None
      | Some (ts, st') =>
          match lex_run st' s' with
          | None => None
          | Some (rest, st'') => Some (ts ++ rest, st'')
          end
      end
  end.

Fixpoint parse_run (ps : JSON.pstate) (ts : list JSON.token) : option JSON.pstate :=
  match ts with
  | [] => Some ps
  | t :: ts' =>
      match JSON.parse_step ps t with
      | None => None
      | Some ps' => parse_run ps' ts'
      end
  end.

(** ** The port (line 10): [process.env.PORT ? parseInt(process.env.PORT) : 3000] *)

(** TrimString at the start: white space and line terminators are dropped. *)
Fixpoint trim_start (s : jsstring) : jsstring :=
  match s with
  | [] => []
  | c :: s' => if RegExp.is_space c then trim_start s' else s
  end.

(** The value of a code unit as a digit of radix [R]: 0-9, then a-z or A-Z
    for 10-35. *)
Definition radix_digit (R : N) (c : char16) : option N :=
  let v := if N.leb 48 c && N.leb c 57 then Some (c - 48)%N
           else if N.leb 97 c && N.leb c 122 then Some (c - 87)%N
           else if N.leb 65 c && N.leb c 90 then Some (c - 55)%N
           else None in
  match v with
  | Some d => if N.ltb d R then Some d else None
  | None => None
  end.

(** The integer of the longest prefix of digits of radix [R]: [acc] is what
    the digits read so far come to, [None] when there is none yet. *)
Fixpoint read_digits (R : N) (s : jsstring) (acc : option N) : option N :=
  match s with
  | [] => acc
  | c :: s' =>
      match radix_digit R c with
      | Some d =>
          read_digits R s' (Some (R * match acc with Some a => a | None => 0 end + d)%N)
      | None => acc
      end
  end.

(** [parseInt(s)] with no radix: [None] is NaN, [Some z] the integer read;
    the Number is [z] itself for a magnitude below 2^53 and the double
    nearest to it beyond. *)
Definition parse_int (s : jsstring) : option Z :=
  let s1 := trim_start s in
  let negative := match s1 with c :: _ => N.eqb c 45 | [] => false end in
  let s2 := match s1 with
            | c :: r => if N.eqb c 43 || N.eqb c 45 then r else s1
            | [] => []
            end in
  let hex := match s2 with
             | c :: x :: _ => N.eqb c 48 && (N.eqb x 120 || N.eqb x 88)
             | _ => false
             end in
  match read_digits (if hex then 16 else 10) (if hex then skipn 2 s2 else s2) None with
  | None => None
  | Some n => Some (if negative then - Z.of_N n else Z.of_N n)%Z
  end.

(** [PORT] for [process.env.PORT], a string or undefined. *)
Definition PORT (env_port : option jsstring) : option Z :=
  match env_port with
  | None | Some [] => Some 3000%Z
  | Some s => parse_int s
  end.

(** What may follow the decimal digits of [n] for them to be read as [n]:
    nothing, or a code unit that is not a decimal digit and, after a lone
    0, not the x of a hexadecimal prefix. *)
Definition ends_number (n : nat) (rest : jsstring) : Prop :=
  match rest with
  | [] => True
  | c :: _ => JSON.digit c = None /\ (n = 0 -> c <> 120%N /\ c <> 88%N)
  end.

(** * Properties *)

(** ** Strings *)

Lemma str_eqb_eq (a b : jsstring) : str_eqb a b = true <-> a = b.
Proof.
  revert b; induction a as [|x a IH]; intros [|y b]; simpl; split; intro H;
    try reflexivity; try discriminate.
  - apply andb_true_iff in H as [Hx Ha]. apply N.eqb_eq in Hx.
    apply IH in Ha. congruence.
  - injection H as -> ->. rewrite N.eqb_refl. simpl. now apply IH.
Qed.

Lemma str_eqb_refl (a : jsstring) : str_eqb a a = true.
Proof. now apply str_eqb_eq. Qed.

(** ** The match of the brace pattern *)

Section BraceMatch.

Import RegExp.

Lemma any_accepts (c : char16) : accepts any_unit c = true.
Proof. unfold any_unit. simpl. apply orb_negb_r. Qed.

(** After the opening brace: the star runs to the end of the text and goes
    back to the last closing brace. *)
Lemma star_to_last_rbrace (s : jsstring) :
  match_here [Star any_unit; One (CChar rbrace)] s = option_map S (last_index rbrace s).
Proof.
  cbn [match_here].
  induction s as [|c s IH].
  - reflexivity.
  - cbn [star last_index]. rewrite any_accepts, IH.
    destruct (last_index rbrace s) as [j|]; [reflexivity|].
    cbn. destruct (N.eqb c rbrace); reflexivity.
Qed.

Lemma match_here_brace (s : jsstring) :
  match_here brace_pattern s =
  match s with
  | [] => None
  | c :: s' =>
      if N.eqb c lbrace
      then option_map (fun j => S (S j)) (last_index rbrace s')
      else None
  end.
Proof.
  destruct s as [|c s']; [reflexivity|].
  change (match_here brace_pattern (c :: s'))
    with (if N.eqb c lbrace
          then option_map S (match_here [Star any_unit; One (CChar rbrace)] s')
          else None).
  rewrite star_to_last_rbrace.
  destruct (last_index rbrace s'); reflexivity.
Qed.

Lemma last_index_skipn (c : char16) (n : nat) (s : jsstring) :
  last_index c (skipn n s) =
  match last_index c s with
  | Some j => if n <=? j then Some (j - n) else None
  | None => None
  end.
Proof.
  revert s; induction n as [|n IH]; intros s.
  - cbn. destruct (last_index c s) as [j|]; [|reflexivity].
    now rewrite Nat.sub_0_r.
  - destruct s as [|x s]; [reflexivity|].
    cbn [skipn last_index]. rewrite IH.
    destruct (last_index c s) as [j|]; [reflexivity|].
    destruct (N.eqb x c); reflexivity.
Qed.

(** The leftmost match starts at the first opening brace and ends at the last
    closing brace after it. *)
Lemma scan_brace (s : jsstring) (i : nat) :
  scan brace_pattern s i =
  match first_index lbrace s with
  | None => None
  | Some a =>
      match last_index rbrace (skipn (S a) s) with
      | None => None
      | Some j => Some (i + a, firstn (j + 2) (skipn a s))
      end
  end.
Proof.
  revert i; induction s as [|c s IH]; intros i.
  - reflexivity.
  - cbn [scan]. rewrite match_here_brace. cbn [first_index].
    destruct (N.eqb c lbrace) eqn:E.
    + cbn [skipn]. destruct (last_index rbrace s) as [j|] eqn:L; cbn [option_map].
      * rewrite Nat.add_0_r. now replace (j + 2) with (S (S j)) by lia.
      * rewrite IH. destruct (first_index lbrace s) as [a|]; [|reflexivity].
        now rewrite last_index_skipn, L.
    + rewrite IH. destruct (first_index lbrace s) as [a|]; cbn [option_map];
        [|reflexivity].
      change (skipn (S (S a)) (c :: s)) with (skipn (S a) s).
      change (skipn (S a) (c :: s)) with (skipn a s).
      destruct (last_index rbrace (skipn (S a) s)); [|reflexivity].
      now replace (S i + a) with (i + S a) by lia.
Qed.

(** The match does not read [lastIndex] and does not write to the object. *)
Lemma symbol_match_brace (i : nat) (text : jsstring) :
  symbol_match (brace_regex_at i) text =
  (option_map snd (scan brace_pattern text 0), brace_regex_at i).
Proof.
  unfold symbol_match, exec. cbn.
  destruct (scan brace_pattern text 0) as [[k m]|]; reflexivity.
Qed.

Lemma json_match_scan (text : jsstring) :
  json_match text = option_map snd (scan brace_pattern text 0).
Proof.
  unfold json_match. change brace_regex with (brace_regex_at 0).
  now rewrite symbol_match_brace.
Qed.

Lemma json_match_indices (text : jsstring) :
  json_match text =
  match first_index lbrace text with
  | None => None
  | Some a =>
      match last_index rbrace (skipn (S a) text) with
      | None => None
      | Some j => Some (firstn (j + 2) (skipn a text))
      end
  end.
Proof.
  rewrite json_match_scan, scan_brace.
  destruct (first_index lbrace text) as [a|]; [|reflexivity].
  destruct (last_index rbrace (skipn (S a) text)); reflexivity.
Qed.

Lemma json_match_brace_span (text : jsstring) : json_match text = brace_span text.
Proof.
  rewrite json_match_indices. unfold brace_span.
  destruct (first_index lbrace text) as [a|]; [|reflexivity].
  rewrite last_index_skipn.
  destruct (last_index rbrace text) as [j|]; [|reflexivity].
  unfold Nat.ltb. destruct (S a <=? j) eqn:E; [|reflexivity].
  apply Nat.leb_le in E. f_equal. f_equal. lia.
Qed.


(** *** Indices and occurrences *)

Lemma first_index_app (c : char16) (pre r : jsstring) :
  ~ In c pre -> first_index c (pre ++ c :: r) = Some (List.length pre).
Proof.
  induction pre as [|x pre IH]; intros Hn; cbn [app first_index List.length].
  - now rewrite N.eqb_refl.
  - destruct (N.eqb x c) eqn:E.
    + apply N.eqb_eq in E. exfalso. apply Hn. now left.
    + rewrite IH; [reflexivity|]. intro Hin. apply Hn. now right.
Qed.

Lemma last_index_none (c : char16) (s : jsstring) :
  ~ In c s -> last_index c s = None.
Proof.
  induction s as [|x s IH]; intros Hn; [reflexivity|].
  cbn [last_index]. rewrite IH by (intro Hin; apply Hn; now right).
  destruct (N.eqb x c) eqn:E; [|reflexivity].
  apply N.eqb_eq in E. exfalso. apply Hn. now left.
Qed.

Lemma last_index_app (c : char16) (s post : jsstring) :
  ~ In c post -> last_index c (s ++ c :: post) = Some (List.length s).
Proof.
  intros Hn. induction s as [|x s IH]; cbn [app last_index List.length].
  - now rewrite last_index_none, N.eqb_refl.
  - now rewrite IH.
Qed.

Lemma first_index_split (c : char16) (s : jsstring) (i : nat) :
  first_index c s = Some i ->
  exists pre r, s = pre ++ c :: r /\ ~ In c pre /\ List.length pre = i.
Proof.
  revert i; induction s as [|x s IH]; intros i H; [discriminate|].
  cbn [first_index] in H. destruct (N.eqb x c) eqn:E.
  - apply N.eqb_eq in E. injection H as <-. subst x.
    exists [], s. repeat split. intros [].
  - destruct (first_index c s) as [k|]; [|discriminate].
    injection H as <-. destruct (IH k eq_refl) as (pre & r & -> & Hn & Hl).
    exists (x :: pre), r. repeat split.
    + intros [->|Hin]; [|now apply Hn]. now rewrite N.eqb_refl in E.
    + cbn. now rewrite Hl.
Qed.

Lemma last_index_split (c : char16) (s : jsstring) (j : nat) :
  last_index c s = Some j ->
  exists mid post, s = mid ++ c :: post /\ ~ In c post /\ List.length mid = j.
Proof.
  revert j; induction s as [|x s IH]; intros j H; [discriminate|].
  cbn [last_index] in H. destruct (last_index c s) as [k|] eqn:L.
  - injection H as <-. destruct (IH k eq_refl) as (mid & post & -> & Hn & Hl).
    exists (x :: mid), post. repeat split; [assumption|]. cbn. now rewrite Hl.
  - destruct (N.eqb x c) eqn:E; [|discriminate].
    apply N.eqb_eq in E. injection H as <-. subst x.
    exists [], s. repeat split.
    intro Hin. apply in_split in Hin as (a & b & ->).
    clear IH. revert L. induction a as [|y a IHa]; cbn [app last_index].
    + destruct (last_index c b); [discriminate|]. now rewrite N.eqb_refl.
    + destruct (last_index c (a ++ c :: b)); [discriminate|]. intros _.
      now apply IHa.
Qed.

Lemma skipn_length_app {A} (a b : list A) : skipn (List.length a) (a ++ b) = b.
Proof. induction a; [reflexivity|assumption]. Qed.

Lemma skipn_S_length_app {A} (a : list A) (x : A) (b : list A) :
  skipn (S (List.length a)) (a ++ x :: b) = b.
Proof. induction a; [reflexivity|assumption]. Qed.

Lemma firstn_length_app {A} (a b : list A) (n : nat) :
  firstn (List.length a + n) (a ++ b) = a ++ firstn n b.
Proof. induction a as [|x a IH]; [reflexivity|]. cbn. now rewrite IH. Qed.

(** *** What the match selects *)

(** From the first opening brace to the last closing brace. *)
Lemma json_match_span (pre mid post : jsstring) :
  ~ In lbrace pre -> ~ In rbrace post ->
  json_match (pre ++ lbrace :: mid ++ rbrace :: post) = Some (lbrace :: mid ++ [rbrace]).
Proof.
  intros Hpre Hpost. rewrite json_match_indices, first_index_app by assumption.
  rewrite skipn_S_length_app, last_index_app, skipn_length_app by assumption.
  replace (List.length mid + 2) with (S (List.length mid + 1)) by lia.
  cbn [firstn]. now rewrite firstn_length_app.
Qed.

Lemma json_match_some (text m : jsstring) :
  json_match text = Some m ->
  exists pre mid post,
    text = pre ++ m ++ post /\ m = lbrace :: mid ++ [rbrace] /\
    ~ In lbrace pre /\ ~ In rbrace post.
Proof.
  intros H. pose proof H as H0. rewrite json_match_indices in H.
  destruct (first_index lbrace text) as [a|] eqn:F; [|discriminate].
  apply first_index_split in F as (pre & r & -> & Hpre & Hl).
  subst a. rewrite skipn_S_length_app in H.
  destruct (last_index rbrace r) as [j|] eqn:L; [|discriminate].
  apply last_index_split in L as (mid & post & -> & Hpost & _).
  rewrite json_match_span in H0 by assumption. injection H0 as <-.
  exists pre, mid, post. repeat split; try assumption.
  cbn [app]. now rewrite <- app_assoc.
Qed.

Lemma first_index_app_le (c : char16) (a r : jsstring) :
  exists i, first_index c (a ++ c :: r) = Some i /\ i <= List.length a.
Proof.
  induction a as [|x a (i & Hi & Hle)]; cbn [app first_index List.length].
  - exists 0. now rewrite N.eqb_refl.
  - destruct (N.eqb x c).
    + exists 0. split; [reflexivity|lia].
    + exists (S i). rewrite Hi. split; [reflexivity|lia].
Qed.

Lemma last_index_app_ge (c : char16) (a r : jsstring) :
  exists j, last_index c (a ++ c :: r) = Some j /\ List.length a <= j.
Proof.
  induction a as [|x a (j & Hj & Hle)]; cbn [app last_index List.length].
  - destruct (last_index c r) as [k|].
    + exists (S k). split; [reflexivity|lia].
    + exists 0. now rewrite N.eqb_refl.
  - exists (S j). rewrite Hj. split; [reflexivity|lia].
Qed.

(** A match is found exactly when the text has a brace-delimited region. *)
Lemma json_match_region (text : jsstring) :
  has_brace_region text -> exists m, json_match text = Some m.
Proof.
  intros (a & b & c & ->). rewrite json_match_brace_span. unfold brace_span.
  destruct (first_index_app_le lbrace a (b ++ rbrace :: c)) as (i & -> & Hi).
  change (a ++ lbrace :: b ++ rbrace :: c) with (a ++ [lbrace] ++ b ++ rbrace :: c).
  rewrite 2 app_assoc.
  destruct (last_index_app_ge rbrace ((a ++ [lbrace]) ++ b) c) as (j & -> & Hj).
  rewrite !length_app in Hj. cbn in Hj.
  assert (E : (i <? j) = true) by (apply Nat.ltb_lt; lia).
  rewrite E. eauto.
Qed.

Lemma json_match_no_region (text : jsstring) :
  ~ has_brace_region text -> json_match text = None.
Proof.
  intros Hn. destruct (json_match text) as [m|] eqn:E; [|reflexivity].
  exfalso. apply Hn. apply json_match_some in E as (pre & mid & post & -> & -> & _).
  exists pre, mid, post. cbn [app]. now rewrite <- app_assoc.
Qed.

End BraceMatch.

(** ** The pipeline *)

Ltac bind_cases H :=
  repeat match type of H with
         | context [bind ?m _] =>
             let t := fresh "t" in
             destruct m as [t|?] eqn:?; cbn [bind] in H
         end.

Lemma strict_eq_str_true (v : JSValue) (s : jsstring) :
  strict_eq_str v s = true <-> v = JString s.
Proof.
  destruct v; cbn; try (split; [discriminate|congruence]).
  rewrite str_eqb_eq. split; congruence.
Qed.

(** Whatever [lastIndex] the object of the literal has, the run gives what a
    run with a new object gives, and leaves the object as it was. *)
Lemma normalize_with_brace (i : nat) (text : JSValue) :
  normalize_with (RegExp.brace_regex_at i) text = (normalize text, RegExp.brace_regex_at i).
Proof.
  unfold normalize. change RegExp.brace_regex with (RegExp.brace_regex_at 0).
  unfold normalize_with, call_match.
  destruct text; try reflexivity.
  now rewrite !symbol_match_brace.
Qed.

Lemma normalize_string (s : jsstring) :
  normalize (JString s) = after_match (json_match s).
Proof.
  unfold normalize. change RegExp.brace_regex with (RegExp.brace_regex_at 0).
  unfold normalize_with, call_match.
  now rewrite symbol_match_brace, json_match_scan.
Qed.

Lemma parse_throws (m : jsstring) (t : Thrown) :
  JSON.parse m = inl t -> t = ThrowError (SyntaxError_JSON m).
Proof.
  unfold JSON.parse. destruct (JSON.lex JSON.LStart m) as [ts|].
  - destruct (JSON.parse_tokens _ ts); [discriminate|]. now intros [= <-].
  - now intros [= <-].
Qed.

Lemma valid_json_false (m : jsstring) :
  valid_json m = false -> JSON.parse m = throw (SyntaxError_JSON m).
Proof.
  unfold valid_json. destruct (JSON.parse m) as [t|v] eqn:E; [|discriminate].
  intros _. now rewrite (parse_throws m t E).
Qed.

(** On an element that is not null (nor undefined) the callback reads the
    three fields and returns a record. *)
Lemma coerce_total (r : JSValue) :
  is_nullish r = false ->
  exists t v u,
    get_prop r (lit "type") = inr t /\
    get_prop r (lit "value") = inr v /\
    get_prop r (lit "uncertain") = inr u /\
    coerce r = inr (mkResult (if strict_eq_str t (lit "vin") then vin else reg)
                             (coalesce v (JString [])) (to_boolean u)).
Proof.
  intros Hr. unfold coerce.
  destruct r; try discriminate; cbn [get_prop ret bind]; eauto 8.
Qed.

Lemma coerce_nullish (r : JSValue) :
  is_nullish r = true -> coerce r = throw (TypeError_read r (lit "type")).
Proof. destruct r; try discriminate; reflexivity. Qed.

Lemma array_map_total (arr : list JSValue) :
  Forall not_null arr ->
  exists out, array_map coerce arr = inr out /\
              Forall2 (fun r e => coerce r = inr e) arr out.
Proof.
  induction 1 as [|r arr Hr _ (out & Hout & Hall)].
  - exists []. split; [reflexivity|constructor].
  - destruct (coerce_total r Hr) as (t & v & u & _ & _ & _ & Hc).
    eexists. cbn [array_map]. rewrite Hc, Hout. cbn [bind ret].
    split; [reflexivity|]. constructor; assumption.
Qed.

Lemma array_map_nullish (arr : list JSValue) :
  Exists (fun r => is_nullish r = true) arr ->
  exists r, In r arr /\ array_map coerce arr = throw (TypeError_read r (lit "type")).
Proof.
  induction arr as [|x arr IH]; intros H; [inversion H|].
  destruct (is_nullish x) eqn:Hx.
  - exists x. split; [now left|]. cbn [array_map]. now rewrite coerce_nullish.
  - inversion H as [? ? Hx'|? ? Hex]; subst; [congruence|].
    destruct (IH Hex) as (r & Hin & Hr). exists r. split; [now right|].
    destruct (coerce_total x Hx) as (t & v & u & _ & _ & _ & Hc).
    cbn [array_map]. now rewrite Hc, Hr.
Qed.

Lemma Forall2_nth_error_l {A B} (P : A -> B -> Prop) (l : list A) (l' : list B) :
  Forall2 P l l' ->
  forall i a, nth_error l i = Some a -> exists b, nth_error l' i = Some b /\ P a b.
Proof.
  induction 1 as [|x y l l' Hxy _ IH]; intros [|i] a Hi; try discriminate.
  - injection Hi as <-. now exists y.
  - now apply IH.
Qed.

(** A parsed array with no null element: the response is 200 with one record
    for each element, in order. *)
Lemma normalize_array (text m : jsstring) (arr : list JSValue) :
  json_match text = Some m -> results_of m = inr (JArray arr) ->
  Forall not_null arr ->
  exists out,
    normalize (JString text) = inr (reply 200 (ResultsBody out)) /\
    Forall2 (fun r e => coerce r = inr e) arr out.
Proof.
  intros Hm Hr Hall. destruct (array_map_total arr Hall) as (out & Hout & HF).
  exists out. split; [|assumption].
  rewrite normalize_string, Hm. cbn [after_match]. rewrite Hr. cbn [bind call_map].
  now rewrite Hout.
Qed.

Lemma handler_reaches (env_key : option jsstring) (req_body : JSValue)
    (fetch : Fetch) (text : jsstring) :
  reaches_normalizer env_key req_body fetch text ->
  handler env_key req_body fetch = Replied (catch (normalize (JString text))).
Proof.
  intros (k & image & resp & data & -> & Hk & Himg & Hb & Hf & Hok & Hj & Ht).
  unfold handler. destruct k as [|c k]; [contradiction|].
  rewrite Himg, Hb. cbn [negb]. unfold extract.
  rewrite Hf. cbn [bind]. rewrite Hok. cbn [negb]. rewrite Hj. cbn [bind].
  now rewrite Ht.
Qed.

Lemma reaches_upstream_says (text : jsstring) :
  reaches_normalizer some_key image_body (upstream_says text) text.
Proof.
  unfold reaches_normalizer, some_key, upstream_says.
  eexists _, _, _, _. repeat split; try reflexivity. discriminate.
Qed.

Lemma after_match_status (jm : option jsstring) (r : Reply) :
  after_match jm = inr r -> status r = 502 \/ status r = 200.
Proof.
  destruct jm as [m|]; cbn [after_match]; intros H.
  - bind_cases H; try discriminate. injection H as <-. now right.
  - injection H as <-. now left.
Qed.

Lemma normalize_status (text : JSValue) (r : Reply) :
  normalize text = inr r -> status r = 502 \/ status r = 200.
Proof.
  destruct text; try discriminate.
  rewrite normalize_string. apply after_match_status.
Qed.

Lemma extract_status (k : jsstring) (image : JSValue) (fetch : Fetch) (r : Reply) :
  extract k image fetch = inr r -> status r = 502 \/ status r = 200.
Proof.
  unfold extract. destruct (fetch k image) as [t|resp]; [discriminate|].
  cbn [bind]. destruct (ok resp); cbn [negb]; intros H.
  - bind_cases H; try discriminate. now apply normalize_status in H.
  - bind_cases H; try discriminate. injection H as <-. now left.
Qed.


(** A parsed array with a null element: the callback throws on the first of
    them, and there is no output. *)
Lemma normalize_null_element (text m : jsstring) (arr : list JSValue) :
  json_match text = Some m -> results_of m = inr (JArray arr) ->
  Exists (fun r => is_nullish r = true) arr ->
  exists r, In r arr /\
    catch (normalize (JString text)) =
    reply 500 (ErrorBody (MessageOf (TypeError_read r (lit "type")))).
Proof.
  intros Hm Hr Hex. destruct (array_map_nullish arr Hex) as (r & Hin & Hthrow).
  exists r. split; [assumption|].
  rewrite normalize_string, Hm. cbn [after_match]. rewrite Hr. cbn [bind call_map].
  now rewrite Hthrow.
Qed.

(** ** A text that starts with an opening brace parses to an object *)

Section ParseObject.

Import JSON.

Lemma bottom_tail_arr (items : list JSValue) (st : list frame) :
  object_at_bottom (FArr items :: st) -> object_at_bottom st.
Proof. now inversion 1. Qed.

Lemma push_value_pending (st : list frame) (v : JSValue) (ps : pstate) :
  object_at_bottom st -> push_value st v = Some ps -> object_pending ps.
Proof.
  intros Hb H. left. destruct st as [|[items|ms [k|]] st']; cbn in H;
    try discriminate; try (now inversion Hb); injection H as <-; cbn [fst].
  - inversion Hb; subst. now constructor.
  - inversion Hb; subst; now constructor.
Qed.

Lemma close_array_pending (st : list frame) (ps : pstate) :
  object_at_bottom st -> close_array st = Some ps -> object_pending ps.
Proof.
  intros Hb H. destruct st as [|[items|ms k] st']; try discriminate.
  cbn [close_array] in H. apply bottom_tail_arr in Hb.
  exact (push_value_pending st' _ ps Hb H).
Qed.

Lemma close_object_pending (st : list frame) (ps : pstate) :
  object_at_bottom st -> close_object st = Some ps -> object_pending ps.
Proof.
  intros Hb H. destruct st as [|[items|ms [k|]] st']; try discriminate.
  cbn [close_object] in H. inversion Hb; subst.
  - cbn in H. injection H as <-. right. now exists ms.
  - exact (push_value_pending st' _ ps H1 H).
Qed.

Lemma value_step_pending (st : list frame) (t : token) (ps : pstate) :
  object_at_bottom st -> value_step st t = Some ps -> object_pending ps.
Proof.
  intros Hb H. destruct t; cbn [value_step] in H; try discriminate;
    try (exact (push_value_pending st _ ps Hb H));
    injection H as <-; left; now constructor.
Qed.

Lemma key_step_pending (st : list frame) (t : token) (ps : pstate) :
  object_at_bottom st -> key_step st t = Some ps -> object_pending ps.
Proof.
  intros Hb H. destruct t; try discriminate.
  destruct st as [|[items|ms [k|]] st']; try discriminate.
  cbn in H. injection H as <-. left. cbn [fst].
  inversion Hb; subst; now constructor.
Qed.

Lemma parse_step_pending (ps ps' : pstate) (t : token) :
  object_pending ps -> parse_step ps t = Some ps' -> object_pending ps'.
Proof.
  intros [Hb | (ms & ->)] H; [|discriminate].
  destruct ps as [st m]. cbn [fst] in Hb. cbn [parse_step] in H.
  destruct m.
  - exact (value_step_pending st t ps' Hb H).
  - destruct t; try exact (value_step_pending st _ ps' Hb H).
    exact (close_array_pending st ps' Hb H).
  - destruct t; try exact (key_step_pending st _ ps' Hb H).
    exact (close_object_pending st ps' Hb H).
  - exact (key_step_pending st t ps' Hb H).
  - destruct t; try discriminate. injection H as <-. now left.
  - destruct t; try discriminate.
    + exact (close_object_pending st ps' Hb H).
    + exact (close_array_pending st ps' Hb H).
    + destruct st as [|[items|ms k] st']; try discriminate;
        injection H as <-; now left.
  - discriminate.
Qed.

Lemma parse_tokens_pending (ts : list token) (ps : pstate) (v : JSValue) :
  object_pending ps -> parse_tokens ps ts = Some v -> exists ms, v = JObject ms.
Proof.
  revert ps; induction ts as [|t ts IH]; intros ps Hp H.
  - cbn in H. destruct Hp as [Hb | (ms & ->)].
    + destruct ps as [[|f st] m]; [inversion Hb|discriminate].
    + injection H as <-. now exists ms.
  - cbn [parse_tokens] in H.
    destruct (parse_step ps t) as [ps'|] eqn:E; [|discriminate].
    exact (IH ps' (parse_step_pending ps ps' t Hp E) H).
Qed.

(** What [JSON.parse] returns for a text whose first code unit is an opening
    brace is an object. *)
Lemma parse_brace_object (s : jsstring) (v : JSValue) :
  JSON.parse (lbrace :: s) = inr v -> exists ms, v = JObject ms.
Proof.
  unfold parse. cbn [lex]. change (lex_step LStart lbrace) with (Some ([TLBrace], LStart)).
  cbv iota beta. destruct (lex LStart s) as [ts|]; [|discriminate].
  cbn [app parse_tokens parse_step value_step].
  destruct (parse_tokens ([FObj [] None], MObjFirst) ts) as [w|] eqn:E; [|discriminate].
  intros [= <-]. apply (parse_tokens_pending ts ([FObj [] None], MObjFirst) w); [|exact E].
  left. constructor.
Qed.

End ParseObject.

(** The value parsed from a matched text is an object. *)
Lemma parsed_match_object (text m : jsstring) (parsed : JSValue) :
  json_match text = Some m -> JSON.parse m = inr parsed ->
  exists ms, parsed = JObject ms.
Proof.
  intros Hm Hp. apply json_match_some in Hm as (_ & mid & _ & _ & -> & _).
  exact (parse_brace_object _ parsed Hp).
Qed.

(** ** The runtime model on small inputs *)

Example match_is_greedy :
  json_match (lit "a {b} c {d} e") = Some (lit "{b} c {d}").
Proof. reflexivity. Qed.

Example match_needs_brace_order : json_match (lit "} then {") = None.
Proof. reflexivity. Qed.

Example parse_last_duplicate_wins :
  JSON.parse (jq "{'a':1,'b':2,'a':3}") =
  inr (JObject [(lit "a", JNumber (mkNum false 3 0)); (lit "b", JNumber (mkNum false 2 0))]).
Proof. reflexivity. Qed.

Example parse_rejects_trailing_comma :
  valid_json (jq "{'results':[],}") = false /\ valid_json (jq "[1,]") = false.
Proof. split; reflexivity. Qed.

Example parse_rejects_two_objects : valid_json (jq "{'results':[]} {'results':[]}") = false.
Proof. reflexivity. Qed.

Example parse_escapes :
  JSON.parse (jq "'A\n\\'") = inr (JString [65; 10; 92]%N).
Proof. reflexivity. Qed.

Example underflow_is_falsy :
  to_boolean (JNumber (mkNum false 1 (-400))) = false /\
  to_boolean (JNumber (mkNum false 5 (-324))) = true.
Proof. split; vm_compute; reflexivity. Qed.

Example empty_results_reply :
  handler some_key image_body (upstream_says (jq "{'results': []}")) =
  Replied (reply 200 (ResultsBody [])).
Proof. reflexivity. Qed.

Example missing_image_reply :
  handler some_key (JObject []) (upstream_says []) = Replied missing_image.
Proof. reflexivity. Qed.

Example upstream_rejection_reply :
  handler some_key image_body
    (fun _ _ => ret (mkResponse false 429 (throw (HostError (lit "Unexpected end of JSON input"))))) =
  Replied (reply 502 (ErrorBody (Str (JString (lit "OpenRouter API error: 429"))))).
Proof. reflexivity. Qed.

(** * The claims *)

(** ** Auxiliary facts *)

Lemma nth_error_not_null (arr : list JSValue) (i : nat) (r : JSValue) :
  Forall not_null arr -> nth_error arr i = Some r -> is_nullish r = false.
Proof.
  intros Hall Hi. apply nth_error_In in Hi.
  now apply (proj1 (Forall_forall not_null arr) Hall).
Qed.

Lemma mixed_not_null : Forall not_null mixed_elements.
Proof. repeat constructor. Qed.

Lemma no_region_of_no_match (text : jsstring) :
  json_match text = None -> ~ has_brace_region text.
Proof.
  intros H R. apply json_match_region in R as (m & Hm). congruence.
Qed.

Lemma not_in_units (c : char16) (s : jsstring) :
  existsb (N.eqb c) s = false -> ~ In c s.
Proof.
  intros H Hin. assert (E : existsb (N.eqb c) s = true).
  { apply existsb_exists. exists c. split; [assumption|apply N.eqb_refl]. }
  congruence.
Qed.

(** ** C1: the kind of a record *)

(** C1, as the code has it.  For every parsed results array with no null
    element, the record of each element has kind [vin] when the element's
    [type] is the string [vin] and kind [reg] for every other [type], absent
    ones too; no record has another kind. *)
Theorem C1_kind_vin_or_reg (text m : jsstring) (arr : list JSValue) :
  json_match text = Some m ->
  results_of m = inr (JArray arr) ->
  Forall not_null arr ->
  exists out,
    normalize (JString text) = inr (reply 200 (ResultsBody out)) /\
    List.length out = List.length arr /\
    (forall i r, nth_error arr i = Some r ->
       exists t e,
         get_prop r (lit "type") = inr t /\ nth_error out i = Some e /\
         (t = JString (lit "vin") -> type e = vin) /\
         (t <> JString (lit "vin") -> type e = reg)) /\
    (forall e, In e out -> type e = vin \/ type e = reg).
Proof.
  intros Hm Hr Hall.
  destruct (normalize_array text m arr Hm Hr Hall) as (out & Hn & HF).
  exists out. split; [assumption|]. split; [symmetry; exact (Forall2_length HF)|].
  split.
  - intros i r Hi.
    destruct (Forall2_nth_error_l _ arr out HF i r Hi) as (e & He & Hc).
    destruct (coerce_total r (nth_error_not_null arr i r Hall Hi))
      as (t & v & u & Ht & _ & _ & Hc').
    rewrite Hc' in Hc. injection Hc as <-.
    exists t. eexists. split; [exact Ht|]. split; [exact He|].
    cbn [type]. split.
    + intros ->. reflexivity.
    + intros Hne. destruct (strict_eq_str t (lit "vin")) eqn:E; [|reflexivity].
      apply strict_eq_str_true in E. contradiction.
  - intros e _. destruct (type e); auto.
Qed.

Lemma C1_witness :
  exists out,
    normalize (JString reply_mixed) = inr (reply 200 (ResultsBody out)) /\
    List.length out = 3 /\
    (forall i r, nth_error mixed_elements i = Some r ->
       exists t e,
         get_prop r (lit "type") = inr t /\ nth_error out i = Some e /\
         (t = JString (lit "vin") -> type e = vin) /\
         (t <> JString (lit "vin") -> type e = reg)) /\
    (forall e, In e out -> type e = vin \/ type e = reg).
Proof.
  apply (C1_kind_vin_or_reg reply_mixed reply_mixed mixed_elements).
  - reflexivity.
  - reflexivity.
  - exact mixed_not_null.
Defined.

(** C1 as stated fails: the second element of this parsed results array is
    null, an element with no [type]; no record of kind [reg] is emitted for
    it, nor one of kind [vin] for the element before it: the handler answers
    500. *)
Lemma C1_null_element_no_record :
  json_match reply_vin_then_null = Some reply_vin_then_null /\
  results_of reply_vin_then_null =
    inr (JArray [JObject [(lit "type", JString (lit "vin"));
                          (lit "value", JString (lit "1HGCM82633A004352"))];
                 JNull]) /\
  handler some_key image_body (upstream_says reply_vin_then_null) =
    Replied (reply 500 (ErrorBody (MessageOf (TypeError_read JNull (lit "type"))))) /\
  ~ (exists out,
       normalize (JString reply_vin_then_null) = inr (reply 200 (ResultsBody out))).
Proof.
  repeat split. intros (out & H). vm_compute in H. discriminate H.
Qed.

(** ** C2: what is handed to [JSON.parse] *)

(** C2.  For every text, the normalizer goes on with the brace span of the
    text as the specification words it: the match of the regular expression
    is the span from the first opening brace of the text to the last closing
    brace of the text (no opening brace before it, no closing brace after
    it), and a match is found whenever an opening brace has a closing brace
    somewhere after it. *)
Theorem C2_match_is_first_to_last_brace (text : jsstring) :
  json_match text = brace_span text /\
  normalize (JString text) = after_match (brace_span text) /\
  (forall m, json_match text = Some m ->
     exists pre mid post,
       text = pre ++ m ++ post /\ m = lbrace :: mid ++ [rbrace] /\
       ~ In lbrace pre /\ ~ In rbrace post) /\
  (has_brace_region text -> exists m, json_match text = Some m).
Proof.
  split; [apply json_match_brace_span|].
  split; [now rewrite normalize_string, json_match_brace_span|].
  split; [intro m; apply json_match_some|apply json_match_region].
Qed.

Lemma C2_witness :
  has_brace_region (lit "see {a} and {b} here") /\
  exists m, json_match (lit "see {a} and {b} here") = Some m.
Proof.
  assert (R : has_brace_region (lit "see {a} and {b} here")).
  { exists (lit "see "), (lit "a} and {b"), (lit " here"). reflexivity. }
  split; [exact R|].
  exact (proj2 (proj2 (proj2
           (C2_match_is_first_to_last_brace (lit "see {a} and {b} here")))) R).
Defined.

(** ** C3: no brace-delimited region *)

(** C3.  When the reply text has no opening brace with a closing brace after
    it, the handler answers 502 with the fixed parse-failure message. *)
Theorem C3_no_region_gives_502 (env_key : option jsstring) (req_body : JSValue)
    (fetch : Fetch) (text : jsstring) :
  reaches_normalizer env_key req_body fetch text ->
  ~ has_brace_region text ->
  handler env_key req_body fetch =
  Replied (reply 502 (ErrorBody (Str (JString (lit "Could not parse response from Claude."))))).
Proof.
  intros Hreach Hno. rewrite (handler_reaches _ _ _ _ Hreach).
  now rewrite normalize_string, json_match_no_region.
Qed.

Lemma C3_witness :
  handler some_key image_body (upstream_says []) =
  Replied (reply 502 (ErrorBody (Str (JString (lit "Could not parse response from Claude."))))).
Proof.
  apply (C3_no_region_gives_502 some_key image_body (upstream_says []) []).
  - apply reaches_upstream_says.
  - apply no_region_of_no_match. reflexivity.
Defined.

(** ** C4: [results] absent, null or of another type *)

(** C4, as the code has it.  For a deserialized object whose [results] is
    absent or null, the handler answers 200 with an empty list; when
    [results] is there with a value that is not an array, [map] is not a
    function of it, and the handler answers 500 with the message of the type
    error. *)
Theorem C4_results_absent_or_null (env_key : option jsstring) (req_body : JSValue)
    (fetch : Fetch) (text m : jsstring) (parsed : JSValue) :
  reaches_normalizer env_key req_body fetch text ->
  json_match text = Some m ->
  JSON.parse m = inr parsed ->
  exists ms,
    parsed = JObject ms /\
    ((lookup (lit "results") ms = JUndefined \/ lookup (lit "results") ms = JNull) ->
     handler env_key req_body fetch = Replied (reply 200 (ResultsBody []))) /\
    (is_nullish (lookup (lit "results") ms) = false ->
     (forall items, lookup (lit "results") ms <> JArray items) ->
     handler env_key req_body fetch =
     Replied (reply 500 (ErrorBody (MessageOf (TypeError_call (lit "map")))))).
Proof.
  intros Hreach Hm Hp.
  destruct (parsed_match_object text m parsed Hm Hp) as (ms & ->).
  exists ms. split; [reflexivity|].
  rewrite (handler_reaches _ _ _ _ Hreach).
  rewrite normalize_string, Hm. cbn [after_match]. unfold results_of.
  rewrite Hp. cbn [bind get_prop ret]. split.
  - intros [-> | ->]; reflexivity.
  - intros Hn Harr. unfold coalesce. rewrite Hn.
    destruct (lookup (lit "results") ms) as [| |b|n|s|items|ms']; try discriminate;
      try reflexivity.
    now destruct (Harr items).
Qed.

Lemma C4_witness :
  exists ms,
    JObject [(lit "note", JString (lit "no plates found"))] = JObject ms /\
    ((lookup (lit "results") ms = JUndefined \/ lookup (lit "results") ms = JNull) ->
     handler some_key image_body (upstream_says reply_no_results) =
     Replied (reply 200 (ResultsBody []))) /\
    (is_nullish (lookup (lit "results") ms) = false ->
     (forall items, lookup (lit "results") ms <> JArray items) ->
     handler some_key image_body (upstream_says reply_no_results) =
     Replied (reply 500 (ErrorBody (MessageOf (TypeError_call (lit "map")))))).
Proof.
  apply (C4_results_absent_or_null some_key image_body
           (upstream_says reply_no_results) reply_no_results reply_no_results
           (JObject [(lit "note", JString (lit "no plates found"))])).
  - apply reaches_upstream_says.
  - reflexivity.
  - reflexivity.
Defined.

(** C4 as stated fails: the text [{"results": "none"}] is deserialized to an
    object whose [results] is a string, not a sequence, and the handler
    answers 500, not 200 with an empty list. *)
Lemma C4_results_string_gives_500 :
  json_match reply_results_not_array = Some reply_results_not_array /\
  JSON.parse reply_results_not_array =
    inr (JObject [(lit "results", JString (lit "none"))]) /\
  handler some_key image_body (upstream_says reply_results_not_array) =
    Replied (reply 500 (ErrorBody (MessageOf (TypeError_call (lit "map"))))) /\
  handler some_key image_body (upstream_says reply_results_not_array) <>
    Replied (reply 200 (ResultsBody [])).
Proof. repeat split. discriminate. Qed.

(** ** C5: one record between prose *)

(** C5, as the code has it.  A JSON text with one object whose [results] has
    one well-formed record, after prose with no opening brace and before
    prose with no closing brace: the output is that one record, whatever the
    prose. *)
Theorem C5_record_between_prose (pre mid post : jsstring) (parsed r : JSValue)
    (k : Kind) (v : jsstring) (u : bool) :
  ~ In lbrace pre -> ~ In rbrace post ->
  JSON.parse (lbrace :: mid ++ [rbrace]) = inr parsed ->
  get_prop parsed (lit "results") = inr (JArray [r]) ->
  get_prop r (lit "type") = inr (JString (kind_literal k)) ->
  get_prop r (lit "value") = inr (JString v) ->
  get_prop r (lit "uncertain") = inr (JBool u) ->
  normalize (JString (pre ++ (lbrace :: mid ++ [rbrace]) ++ post)) =
  inr (reply 200 (ResultsBody [mkResult k (JString v) u])).
Proof.
  intros Hpre Hpost Hp Hres Ht Hv Hu.
  rewrite normalize_string.
  replace (pre ++ (lbrace :: mid ++ [rbrace]) ++ post)
    with (pre ++ lbrace :: mid ++ rbrace :: post)
    by (cbn [app]; now rewrite <- app_assoc).
  rewrite json_match_span by assumption.
  cbn [after_match]. unfold results_of. rewrite Hp. cbn [bind]. rewrite Hres.
  cbn [bind ret coalesce is_nullish call_map array_map].
  unfold coerce. rewrite Ht, Hv, Hu. cbn [bind ret].
  destruct k; reflexivity.
Qed.

Lemma C5_witness :
  normalize (JString (prose_before ++ reply_one_plate ++ prose_after)) =
  inr (reply 200 (ResultsBody [mkResult reg (JString (lit "AB12 CDE")) false])).
Proof.
  refine (C5_record_between_prose prose_before
            (jq "'results':[{'type':'reg','value':'AB12 CDE','uncertain':false}]")
            prose_after
            (JObject [(lit "results",
                       JArray [JObject [(lit "type", JString (lit "reg"));
                                        (lit "value", JString (lit "AB12 CDE"));
                                        (lit "uncertain", JBool false)]])])
            (JObject [(lit "type", JString (lit "reg"));
                      (lit "value", JString (lit "AB12 CDE"));
                      (lit "uncertain", JBool false)])
            reg (lit "AB12 CDE") false _ _ _ _ _ _ _).
  - apply not_in_units. reflexivity.
  - apply not_in_units. reflexivity.
  - reflexivity.
  - reflexivity.
  - reflexivity.
  - reflexivity.
  - reflexivity.
Defined.

(** C5 as stated fails: with braces in the prose before it, the object of
    the specification's example is not extracted; the match runs from the
    brace in the prose, [JSON.parse] rejects it and the handler answers 500.
    Alone, the same object gives its record. *)
Lemma C5_braces_in_prose_give_500 :
  normalize (JString reply_one_plate) =
    inr (reply 200 (ResultsBody [mkResult reg (JString (lit "AB12 CDE")) false])) /\
  json_match reply_braces_in_prose =
    Some (lit "{front and rear}: " ++ reply_one_plate) /\
  handler some_key image_body (upstream_says reply_braces_in_prose) =
    Replied (reply 500 (ErrorBody (MessageOf
      (SyntaxError_JSON (lit "{front and rear}: " ++ reply_one_plate))))) /\
  normalize (JString reply_braces_in_prose) <>
    inr (reply 200 (ResultsBody [mkResult reg (JString (lit "AB12 CDE")) false])).
Proof. repeat split. discriminate. Qed.

(** ** C6: the value and the confidence flag of a record *)

(** C6, as the code has it.  For every parsed results array with no null
    element, each element has its record; the record's value is the empty
    string when the element has no [value], and its [uncertain] is the
    truthiness of the element's [uncertain], false when that is absent or
    falsy. *)
Theorem C6_value_and_uncertain (text m : jsstring) (arr : list JSValue) :
  json_match text = Some m ->
  results_of m = inr (JArray arr) ->
  Forall not_null arr ->
  exists out,
    normalize (JString text) = inr (reply 200 (ResultsBody out)) /\
    List.length out = List.length arr /\
    forall i r, nth_error arr i = Some r ->
      exists v u e,
        get_prop r (lit "value") = inr v /\
        get_prop r (lit "uncertain") = inr u /\
        nth_error out i = Some e /\
        (v = JUndefined -> value e = JString []) /\
        uncertain e = to_boolean u /\
        (u = JUndefined \/ to_boolean u = false -> uncertain e = false).
Proof.
  intros Hm Hr Hall.
  destruct (normalize_array text m arr Hm Hr Hall) as (out & Hn & HF).
  exists out. split; [assumption|]. split; [symmetry; exact (Forall2_length HF)|].
  intros i r Hi.
  destruct (Forall2_nth_error_l _ arr out HF i r Hi) as (e & He & Hc).
  destruct (coerce_total r (nth_error_not_null arr i r Hall Hi))
    as (t & v & u & _ & Hv & Hu & Hc').
  rewrite Hc' in Hc. injection Hc as <-.
  exists v, u. eexists. split; [exact Hv|]. split; [exact Hu|].
  split; [exact He|]. cbn [value uncertain]. split; [|split].
  - intros ->. reflexivity.
  - reflexivity.
  - intros [-> | H]; [reflexivity|exact H].
Qed.

Lemma C6_witness :
  exists out,
    normalize (JString reply_mixed) = inr (reply 200 (ResultsBody out)) /\
    List.length out = 3 /\
    forall i r, nth_error mixed_elements i = Some r ->
      exists v u e,
        get_prop r (lit "value") = inr v /\
        get_prop r (lit "uncertain") = inr u /\
        nth_error out i = Some e /\
        (v = JUndefined -> value e = JString []) /\
        uncertain e = to_boolean u /\
        (u = JUndefined \/ to_boolean u = false -> uncertain e = false).
Proof.
  apply (C6_value_and_uncertain reply_mixed reply_mixed mixed_elements).
  - reflexivity.
  - reflexivity.
  - exact mixed_not_null.
Defined.

(** C6 as stated fails: the one element of this parsed results array is
    null, which has no [value]; no record with an empty value stands for it
    in the output: the handler answers 500. *)
Lemma C6_null_element_omitted :
  json_match reply_null_only = Some reply_null_only /\
  results_of reply_null_only = inr (JArray [JNull]) /\
  handler some_key image_body (upstream_says reply_null_only) =
    Replied (reply 500 (ErrorBody (MessageOf (TypeError_read JNull (lit "type"))))) /\
  ~ (exists out,
       normalize (JString reply_null_only) = inr (reply 200 (ResultsBody out))).
Proof.
  repeat split. intros (out & H). vm_compute in H. discriminate H.
Qed.

(** ** C7: order and cardinality *)

(** C7, as the code has it.  For every parsed results array with no null
    element, the output has as many records as the array has elements, and
    the record at each index is what the callback returns for the element at
    that index: nothing is left out, merged or moved. *)
Theorem C7_order_and_cardinality (text m : jsstring) (arr : list JSValue) :
  json_match text = Some m ->
  results_of m = inr (JArray arr) ->
  Forall not_null arr ->
  exists out,
    normalize (JString text) = inr (reply 200 (ResultsBody out)) /\
    List.length out = List.length arr /\
    forall i r, nth_error arr i = Some r ->
      exists e, nth_error out i = Some e /\ coerce r = inr e.
Proof.
  intros Hm Hr Hall.
  destruct (normalize_array text m arr Hm Hr Hall) as (out & Hn & HF).
  exists out. split; [assumption|]. split.
  - symmetry. exact (Forall2_length HF).
  - intros i r Hi. exact (Forall2_nth_error_l _ arr out HF i r Hi).
Qed.

Lemma C7_witness :
  exists out,
    normalize (JString reply_mixed) = inr (reply 200 (ResultsBody out)) /\
    List.length out = 3 /\
    forall i r, nth_error mixed_elements i = Some r ->
      exists e, nth_error out i = Some e /\ coerce r = inr e.
Proof.
  apply (C7_order_and_cardinality reply_mixed reply_mixed mixed_elements).
  - reflexivity.
  - reflexivity.
  - exact mixed_not_null.
Defined.

(** C7 as stated fails: the parsed results array of this reply has three
    elements, the second of them null; the callback throws on it, and the
    handler answers 500 with no output sequence at all. *)
Lemma C7_null_element_no_output :
  json_match reply_null_between = Some reply_null_between /\
  results_of reply_null_between =
    inr (JArray [JObject [(lit "type", JString (lit "reg"));
                          (lit "value", JString (lit "AB12 CDE"))];
                 JNull;
                 JObject [(lit "type", JString (lit "reg"));
                          (lit "value", JString (lit "A123 BCD"))]]) /\
  handler some_key image_body (upstream_says reply_null_between) =
    Replied (reply 500 (ErrorBody (MessageOf (TypeError_read JNull (lit "type"))))) /\
  ~ (exists out,
       normalize (JString reply_null_between) = inr (reply 200 (ResultsBody out))).
Proof.
  repeat split. intros (out & H). vm_compute in H. discriminate H.
Qed.

(** ** C8: a region that is not JSON *)

(** C8.  When a brace-delimited region is found and [JSON.parse] rejects it,
    the handler answers 500 with the message of the syntax error. *)
Theorem C8_invalid_json_gives_500 (env_key : option jsstring) (req_body : JSValue)
    (fetch : Fetch) (text m : jsstring) :
  reaches_normalizer env_key req_body fetch text ->
  json_match text = Some m ->
  valid_json m = false ->
  handler env_key req_body fetch =
  Replied (reply 500 (ErrorBody (MessageOf (SyntaxError_JSON m)))).
Proof.
  intros Hreach Hm Hbad. rewrite (handler_reaches _ _ _ _ Hreach).
  rewrite normalize_string, Hm. cbn [after_match]. unfold results_of.
  now rewrite (valid_json_false m Hbad).
Qed.

Lemma C8_witness :
  handler some_key image_body (upstream_says (jq "{'results': [}")) =
  Replied (reply 500 (ErrorBody (MessageOf (SyntaxError_JSON (jq "{'results': [}"))))).
Proof.
  apply (C8_invalid_json_gives_500 some_key image_body
           (upstream_says (jq "{'results': [}")) (jq "{'results': [}")).
  - apply reaches_upstream_says.
  - reflexivity.
  - reflexivity.
Defined.

(** ** C9: no hidden state *)

(** C9.  Two runs of the normalizer on the same text give the same output:
    the only object with state the run touches is the RegExp object of the
    literal, and whatever its [lastIndex], a run gives what a run with a new
    object gives and leaves the object as it found it; so a second run, even
    on the object the first has used, repeats the first. *)
Theorem C9_normalizer_has_no_state (text : JSValue) (i : nat) :
  let (out1, R1) := normalize_with (RegExp.brace_regex_at i) text in
  let (out2, R2) := normalize_with R1 text in
  out1 = normalize text /\ out2 = normalize text /\ out1 = out2 /\
  R1 = RegExp.brace_regex_at i /\ R2 = RegExp.brace_regex_at i.
Proof.
  rewrite normalize_with_brace, normalize_with_brace. repeat split.
Qed.

(** ** C10: the key is checked before the body *)

(** C10.  Without an API key (undefined or empty) the handler answers 500
    with the misconfiguration message whatever the body holds, and an answer
    with status 400 is given only when the key is there. *)
Theorem C10_key_checked_before_body (env_key : option jsstring)
    (req_body : JSValue) (fetch : Fetch) :
  ((env_key = None \/ env_key = Some []) ->
   handler env_key req_body fetch =
   Replied (reply 500 (ErrorBody (Str (JString (lit "Server misconfiguration: missing API key")))))) /\
  (forall r, handler env_key req_body fetch = Replied r -> status r = 400 ->
     (exists k, env_key = Some k /\ k <> []) /\ r = missing_image).
Proof.
  split.
  - intros [-> | ->]; reflexivity.
  - intros r H H400. unfold handler in H.
    destruct env_key as [[|c k]|]; try (injection H as <-; discriminate).
    destruct (get_prop req_body (lit "image")) as [t|image]; [discriminate|].
    destruct (negb (to_boolean image)).
    + injection H as <-. split; [|reflexivity].
      exists (c :: k). split; [reflexivity|discriminate].
    + injection H as <-. exfalso.
      destruct (extract (c :: k) image fetch) as [[e|v]|r] eqn:E;
        try discriminate.
      apply extract_status in E. cbn [catch] in H400. lia.
Qed.

Lemma C10_witness :
  handler None (JObject []) (upstream_says []) =
  Replied (reply 500 (ErrorBody (Str (JString (lit "Server misconfiguration: missing API key"))))) /\
  ((exists k, some_key = Some k /\ k <> []) /\ missing_image = missing_image).
Proof.
  split.
  - apply (proj1 (C10_key_checked_before_body None (JObject []) (upstream_says []))).
    now left.
  - apply (proj2 (C10_key_checked_before_body some_key (JObject []) (upstream_says []))
             missing_image); reflexivity.
Defined.

(** * Further properties of the handler *)

(** ** Before and around the upstream call (lines 48-100, 116-119) *)

Lemma handler_try (env_key : option jsstring) (req_body : JSValue) (fetch : Fetch)
    (k : jsstring) (image : JSValue) :
  passes_checks env_key req_body k image ->
  handler env_key req_body fetch = Replied (catch (extract k image fetch)).
Proof.
  intros (-> & Hk & Himg & Hb). unfold handler.
  destruct k as [|c k]; [contradiction|]. now rewrite Himg, Hb.
Qed.

Lemma the_checks_pass : passes_checks some_key image_body the_key the_image.
Proof. repeat split. discriminate. Qed.

Lemma get_prop_not_nullish (v : JSValue) (k : jsstring) :
  is_nullish v = false -> exists w, get_prop v k = inr w.
Proof. destruct v; try discriminate; cbn; eauto. Qed.

Lemma coalesce_not_nullish (a b : JSValue) :
  is_nullish b = false -> is_nullish (coalesce a b) = false.
Proof. unfold coalesce. destruct (is_nullish a) eqn:E; auto. Qed.



(** X2.  When the upstream answers with a failure status and its body cannot
    be read as JSON, or has no [error], or an [error] with no [message] (or
    a null one), the handler answers 502 with the text "OpenRouter API
    error: " followed by the status in decimal. *)
Theorem X2_upstream_fallback_message (env_key : option jsstring)
    (req_body : JSValue) (fetch : Fetch) (k : jsstring) (image : JSValue)
    (resp : Response) :
  passes_checks env_key req_body k image ->
  fetch k image = inr resp -> ok resp = false ->
  ((exists t, json resp = inl t) \/
   (exists err e m,
      json resp = inr err /\ get_prop err (lit "error") = inr e /\
      opt_prop e (lit "message") = inr m /\ is_nullish m = true)) ->
  handler env_key req_body fetch =
  Replied (reply 502 (ErrorBody (Str (JString
    (lit "OpenRouter API error: " ++ decimal (http_status resp)))))).
Proof.
  intros Hc Hf Hok H. rewrite (handler_try _ _ _ _ _ Hc).
  unfold extract. rewrite Hf. cbn [bind]. rewrite Hok. cbn [negb].
  destruct H as [(t & ->) | (err & e & m & -> & He & Hm & Hmn)].
  - reflexivity.
  - rewrite He. cbn [bind]. rewrite Hm. cbn [bind ret].
    unfold coalesce. now rewrite Hmn.
Qed.

Lemma X2_witness :
  handler some_key image_body
    (upstream_fails 503 (throw (HostError (lit "Unexpected token < in JSON")))) =
  Replied (reply 502 (ErrorBody (Str (JString (lit "OpenRouter API error: 503"))))).
Proof.
  apply (X2_upstream_fallback_message some_key image_body
           (upstream_fails 503 (throw (HostError (lit "Unexpected token < in JSON"))))
           the_key the_image
           (mkResponse false 503 (throw (HostError (lit "Unexpected token < in JSON"))))).
  - exact the_checks_pass.
  - reflexivity.
  - reflexivity.
  - left. eexists. reflexivity.
Defined.



(** X4.  With the key there and a body whose [image] is missing or falsy
    (undefined, null, false, a zero, the empty string), the handler answers
    400 with the missing-image message whatever the upstream would do: the
    answer does not depend on [fetch]. *)
Theorem X4_missing_image_before_upstream (k : jsstring) (req_body image : JSValue)
    (fetch : Fetch) :
  k <> [] ->
  get_prop req_body (lit "image") = inr image ->
  to_boolean image = false ->
  handler (Some k) req_body fetch =
  Replied (reply 400 (ErrorBody (Str (JString
    (lit "Missing 'image' field (expected a data URL)"))))).
Proof.
  intros Hk Himg Hf. unfold handler. destruct k as [|c k]; [contradiction|].
  now rewrite Himg, Hf.
Qed.

Lemma X4_witness :
  handler some_key (JObject [(lit "image", JString [])])
    (upstream_down (ThrowError (HostError (lit "fetch failed")))) =
  Replied (reply 400 (ErrorBody (Str (JString
    (lit "Missing 'image' field (expected a data URL)"))))).
Proof.
  apply (X4_missing_image_before_upstream the_key
           (JObject [(lit "image", JString [])]) (JString [])).
  - discriminate.
  - reflexivity.
  - reflexivity.
Defined.

(** X5.  The handler sends a response for every request whose body is not
    null or undefined; for a body that is null or undefined, with the key
    there, the destructuring before [try] throws and the handler's promise
    is rejected with no response sent. *)
Theorem X5_response_unless_body_nullish (env_key : option jsstring)
    (req_body : JSValue) (fetch : Fetch) :
  (is_nullish req_body = false ->
   exists r, handler env_key req_body fetch = Replied r) /\
  (is_nullish req_body = true ->
   forall k, env_key = Some k -> k <> [] ->
   handler env_key req_body fetch =
   Rejected (ThrowError (TypeError_read req_body (lit "image")))).
Proof.
  split.
  - intros Hb. unfold handler. destruct env_key as [[|c k]|]; eauto.
    destruct (get_prop_not_nullish req_body (lit "image") Hb) as (image & ->).
    destruct (negb (to_boolean image)); eauto.
  - intros Hb k -> Hk. unfold handler. destruct k as [|c k]; [contradiction|].
    destruct req_body; try discriminate; reflexivity.
Qed.

Lemma X5_witness :
  (exists r, handler some_key (JArray []) (upstream_says []) = Replied r) /\
  handler some_key JUndefined (upstream_says []) =
  Rejected (ThrowError (TypeError_read JUndefined (lit "image"))).
Proof.
  split.
  - apply (proj1 (X5_response_unless_body_nullish some_key (JArray [])
                    (upstream_says []))).
    reflexivity.
  - apply (proj2 (X5_response_unless_body_nullish some_key JUndefined
                    (upstream_says [])) eq_refl the_key).
    + reflexivity.
    + discriminate.
Defined.

Lemma after_match_shape (jm : option jsstring) (r : Reply) :
  after_match jm = inr r ->
  r = parse_failure \/ exists out, r = reply 200 (ResultsBody out).
Proof.
  destruct jm as [m|]; cbn [after_match]; intros H.
  - bind_cases H; try discriminate. injection H as <-. right. eauto.
  - injection H as <-. now left.
Qed.

Lemma extract_shape (k : jsstring) (image : JSValue) (fetch : Fetch) (r : Reply) :
  extract k image fetch = inr r ->
  (exists msg, r = reply 502 (ErrorBody (Str msg))) \/
  (exists out, r = reply 200 (ResultsBody out)).
Proof.
  unfold extract. destruct (fetch k image) as [t|resp]; [discriminate|].
  cbn [bind]. destruct (ok resp); cbn [negb]; intros H.
  - destruct (json resp) as [t|data]; [discriminate|]. cbn [bind] in H.
    destruct (reply_text data) as [t|v]; [discriminate|]. cbn [bind] in H.
    destruct v; try (vm_compute in H; discriminate).
    rewrite normalize_string in H.
    apply after_match_shape in H as [-> | (out & ->)];
      [left; eexists; reflexivity | right; eexists; reflexivity].
  - bind_cases H; try discriminate. injection H as <-. left. eauto.
Qed.

(** X6.  Every response of the handler has status 200, 400, 500 or 502; the
    body holds [results] exactly when the status is 200, and an [error]
    otherwise. *)
Theorem X6_status_and_body (env_key : option jsstring) (req_body : JSValue)
    (fetch : Fetch) (r : Reply) :
  handler env_key req_body fetch = Replied r ->
  (status r = 200 /\ exists out, body r = ResultsBody out) \/
  ((status r = 400 \/ status r = 500 \/ status r = 502) /\
   exists e, body r = ErrorBody e).
Proof.
  unfold handler. intros H.
  destruct env_key as [[|c k]|]; try (injection H as <-; right; cbn; eauto).
  destruct (get_prop req_body (lit "image")) as [t|image]; [discriminate|].
  destruct (negb (to_boolean image)); injection H as <-.
  - right. cbn. eauto.
  - destruct (extract (c :: k) image fetch) as [[e|v]|r] eqn:E.
    + right. cbn. eauto.
    + right. cbn. eauto.
    + apply extract_shape in E as [(msg & ->) | (out & ->)]; cbn; eauto 6.
Qed.

Lemma X6_witness :
  (status (reply 200 (ResultsBody [])) = 200 /\
   exists out, body (reply 200 (ResultsBody [])) = ResultsBody out) \/
  ((status (reply 200 (ResultsBody [])) = 400 \/
    status (reply 200 (ResultsBody [])) = 500 \/
    status (reply 200 (ResultsBody [])) = 502) /\
   exists e, body (reply 200 (ResultsBody [])) = ErrorBody e).
Proof.
  apply (X6_status_and_body some_key image_body
           (upstream_says (jq "{'results': []}")) (reply 200 (ResultsBody []))).
  reflexivity.
Defined.

(** X7.  When the upstream cannot be reached, or answers with a success
    status and a body that cannot be read as JSON, the handler answers 500:
    with the message of the error, or with "Unknown error" when what was
    thrown is not an Error. *)
Theorem X7_transport_failure_gives_500 (env_key : option jsstring)
    (req_body : JSValue) (fetch : Fetch) (k : jsstring) (image : JSValue)
    (t : Thrown) :
  passes_checks env_key req_body k image ->
  (fetch k image = inl t \/
   exists resp, fetch k image = inr resp /\ ok resp = true /\ json resp = inl t) ->
  handler env_key req_body fetch =
  Replied (reply 500 (ErrorBody
    match t with
    | ThrowError e => MessageOf e
    | ThrowValue _ => Str (JString (lit "Unknown error"))
    end)).
Proof.
  intros Hc H. rewrite (handler_try _ _ _ _ _ Hc). unfold extract.
  destruct H as [-> | (resp & -> & Hok & Hj)]; cbn [bind].
  - now destruct t.
  - rewrite Hok. cbn [negb]. rewrite Hj. cbn [bind]. now destruct t.
Qed.

Lemma X7_witness :
  handler some_key image_body (upstream_down (ThrowValue (JString (lit "timeout")))) =
  Replied (reply 500 (ErrorBody (Str (JString (lit "Unknown error"))))).
Proof.
  apply (X7_transport_failure_gives_500 some_key image_body
           (upstream_down (ThrowValue (JString (lit "timeout")))) the_key the_image
           (ThrowValue (JString (lit "timeout")))).
  - exact the_checks_pass.
  - left. reflexivity.
Defined.

Lemma opt_prop_total (v : JSValue) (k : jsstring) : exists w, opt_prop v k = inr w.
Proof.
  unfold opt_prop. destruct (is_nullish v) eqn:E; [now exists JUndefined|].
  now apply get_prop_not_nullish.
Qed.

Lemma opt_elem0_total (v : JSValue) : exists w, opt_elem0 v = inr w.
Proof. destruct v; cbn; eauto. Qed.

Lemma reply_text_total (data : JSValue) :
  is_nullish data = false ->
  exists v, reply_text data = inr v /\ is_nullish v = false.
Proof.
  intros Hd. unfold reply_text.
  destruct (get_prop_not_nullish data (lit "choices") Hd) as (c & ->). cbn [bind].
  destruct (opt_elem0_total c) as (c0 & ->). cbn [bind].
  destruct (opt_prop_total c0 (lit "message")) as (m & ->). cbn [bind].
  destruct (opt_prop_total m (lit "content")) as (ct & ->).
  cbn [bind ret]. eexists. split; [reflexivity|].
  now apply coalesce_not_nullish.
Qed.

(** X8.  When the upstream answers with a success status and a JSON body,
    line 100 cannot throw unless the body is null: for every other body the
    optional chain gives a text that is never null or undefined, which goes
    to the normalizer; for the body null the handler answers 500. *)
Theorem X8_reply_text_defined (env_key : option jsstring) (req_body : JSValue)
    (fetch : Fetch) (k : jsstring) (image : JSValue) (resp : Response)
    (data : JSValue) :
  passes_checks env_key req_body k image ->
  fetch k image = inr resp -> ok resp = true -> json resp = inr data ->
  (is_nullish data = false ->
   exists v, reply_text data = inr v /\ is_nullish v = false /\
             handler env_key req_body fetch = Replied (catch (normalize v))) /\
  (is_nullish data = true ->
   handler env_key req_body fetch =
   Replied (reply 500 (ErrorBody (MessageOf (TypeError_read data (lit "choices")))))).
Proof.
  intros Hc Hf Hok Hj. rewrite (handler_try _ _ _ _ _ Hc). unfold extract.
  rewrite Hf. cbn [bind]. rewrite Hok. cbn [negb]. rewrite Hj. cbn [bind].
  split; intros Hd.
  - destruct (reply_text_total data Hd) as (v & Hv & Hn).
    exists v. rewrite Hv. now repeat split.
  - destruct data; try discriminate; reflexivity.
Qed.

Lemma X8_witness :
  (exists v, reply_text (JObject [(lit "id", JString (lit "gen-1"))]) = inr v /\
             is_nullish v = false /\
             handler some_key image_body
               (upstream_body (ret (JObject [(lit "id", JString (lit "gen-1"))]))) =
             Replied (catch (normalize v))) /\
  handler some_key image_body (upstream_body (ret JNull)) =
  Replied (reply 500 (ErrorBody (MessageOf (TypeError_read JNull (lit "choices"))))).
Proof.
  split.
  - apply (proj1 (X8_reply_text_defined some_key image_body
             (upstream_body (ret (JObject [(lit "id", JString (lit "gen-1"))])))
             the_key the_image
             (mkResponse true 200 (ret (JObject [(lit "id", JString (lit "gen-1"))])))
             (JObject [(lit "id", JString (lit "gen-1"))])
             the_checks_pass eq_refl eq_refl eq_refl)).
    reflexivity.
  - apply (proj2 (X8_reply_text_defined some_key image_body
             (upstream_body (ret JNull)) the_key the_image
             (mkResponse true 200 (ret JNull)) JNull
             the_checks_pass eq_refl eq_refl eq_refl)).
    reflexivity.
Defined.

(** X9.  When the content of the first choice is there and is not a string
    (a number, a boolean, an array of parts, an object), it has no [match]
    to call and the handler answers 500. *)
Theorem X9_non_string_content_gives_500 (env_key : option jsstring)
    (req_body : JSValue) (fetch : Fetch) (k : jsstring) (image : JSValue)
    (resp : Response) (data v : JSValue) :
  passes_checks env_key req_body k image ->
  fetch k image = inr resp -> ok resp = true -> json resp = inr data ->
  reply_text data = inr v -> (forall s, v <> JString s) ->
  handler env_key req_body fetch =
  Replied (reply 500 (ErrorBody (MessageOf (TypeError_call (lit "match"))))).
Proof.
  intros Hc Hf Hok Hj Hv Hs. rewrite (handler_try _ _ _ _ _ Hc). unfold extract.
  rewrite Hf. cbn [bind]. rewrite Hok. cbn [negb]. rewrite Hj. cbn [bind].
  rewrite Hv. cbn [bind].
  assert (Hd : is_nullish data = false).
  { destruct data; try reflexivity; discriminate. }
  destruct (reply_text_total data Hd) as (v' & Hv' & Hn).
  rewrite Hv in Hv'. injection Hv' as <-.
  destruct v; try discriminate; try reflexivity.
  now destruct (Hs s).
Qed.

Lemma X9_witness :
  handler some_key image_body
    (upstream_body (ret (completion (JArray [JObject [(lit "type", JString (lit "text"))]])))) =
  Replied (reply 500 (ErrorBody (MessageOf (TypeError_call (lit "match"))))).
Proof.
  apply (X9_non_string_content_gives_500 some_key image_body
           (upstream_body (ret (completion (JArray [JObject [(lit "type", JString (lit "text"))]]))))
           the_key the_image
           (mkResponse true 200
              (ret (completion (JArray [JObject [(lit "type", JString (lit "text"))]]))))
           (completion (JArray [JObject [(lit "type", JString (lit "text"))]]))
           (JArray [JObject [(lit "type", JString (lit "text"))]]));
    try reflexivity.
  - exact the_checks_pass.
  - discriminate.
Defined.

(** X10.  When the body of a success has no [choices], a null [choices] or
    an empty array of them, the text is the empty string and the handler
    answers 502 with the parse-failure message. *)
Theorem X10_no_choices_gives_502 (env_key : option jsstring)
    (req_body : JSValue) (fetch : Fetch) (k : jsstring) (image : JSValue)
    (resp : Response) (data c : JSValue) :
  passes_checks env_key req_body k image ->
  fetch k image = inr resp -> ok resp = true -> json resp = inr data ->
  get_prop data (lit "choices") = inr c ->
  (is_nullish c = true \/ c = JArray []) ->
  handler env_key req_body fetch =
  Replied (reply 502 (ErrorBody (Str (JString (lit "Could not parse response from Claude."))))).
Proof.
  intros Hc Hf Hok Hj Hch Hcs. rewrite (handler_try _ _ _ _ _ Hc). unfold extract.
  rewrite Hf. cbn [bind]. rewrite Hok. cbn [negb]. rewrite Hj. cbn [bind].
  unfold reply_text. rewrite Hch. cbn [bind].
  destruct Hcs as [Hn | ->].
  - destruct c; try discriminate; reflexivity.
  - reflexivity.
Qed.

Lemma X10_witness :
  handler some_key image_body
    (upstream_body (ret (JObject [(lit "choices", JArray [])]))) =
  Replied (reply 502 (ErrorBody (Str (JString (lit "Could not parse response from Claude."))))).
Proof.
  apply (X10_no_choices_gives_502 some_key image_body
           (upstream_body (ret (JObject [(lit "choices", JArray [])])))
           the_key the_image
           (mkResponse true 200 (ret (JObject [(lit "choices", JArray [])])))
           (JObject [(lit "choices", JArray [])]) (JArray []));
    try reflexivity.
  - exact the_checks_pass.
  - now right.
Defined.

(** ** From the text to the records (lines 102-115) *)

Lemma array_map_inv (arr : list JSValue) (out : list ExtractResult) :
  array_map coerce arr = inr out ->
  Forall2 (fun r e => coerce r = inr e) arr out.
Proof.
  revert out; induction arr as [|r arr IH]; intros out H; cbn [array_map] in H.
  - injection H as <-. constructor.
  - destruct (coerce r) as [t|e] eqn:Hc; [discriminate|]. cbn [bind] in H.
    destruct (array_map coerce arr) as [t|es]; [discriminate|]. cbn [bind] in H.
    injection H as <-. constructor; [assumption|now apply IH].
Qed.

Lemma coerce_inr_not_null (r : JSValue) (e : ExtractResult) :
  coerce r = inr e -> not_null r.
Proof.
  intros H. unfold not_null. destruct (is_nullish r) eqn:E; [|reflexivity].
  rewrite (coerce_nullish r E) in H. discriminate.
Qed.

Lemma Forall2_coerce_not_null (arr : list JSValue) (out : list ExtractResult) :
  Forall2 (fun r e => coerce r = inr e) arr out -> Forall not_null arr.
Proof.
  induction 1 as [|r e arr out H _ IH]; constructor; [|assumption].
  exact (coerce_inr_not_null r e H).
Qed.

Lemma normalize_200_inv (v : JSValue) (out : list ExtractResult) :
  normalize v = inr (reply 200 (ResultsBody out)) ->
  exists text m arr,
    v = JString text /\ json_match text = Some m /\
    results_of m = inr (JArray arr) /\ array_map coerce arr = inr out.
Proof.
  intros H. destruct v as [| |b|n|text|items|ms]; try (vm_compute in H; discriminate).
  rewrite normalize_string in H.
  destruct (json_match text) as [m|] eqn:Hm; [|discriminate].
  cbn [after_match] in H.
  destruct (results_of m) as [t|recv] eqn:Hr; [discriminate|]. cbn [bind] in H.
  destruct recv as [| |b|n|s|arr|ms]; try discriminate. cbn [call_map] in H.
  destruct (array_map coerce arr) as [t|res] eqn:Ha; [discriminate|].
  cbn [bind] in H. injection H as <-. now exists text, m, arr.
Qed.

Lemma handler_200_inv (env_key : option jsstring)
    (req_body : JSValue) (fetch : Fetch) (out : list ExtractResult) :
  handler env_key req_body fetch = Replied (reply 200 (ResultsBody out)) ->
  exists text m arr,
    reaches_normalizer env_key req_body fetch text /\
    json_match text = Some m /\ results_of m = inr (JArray arr) /\
    Forall2 (fun r e => coerce r = inr e) arr out.
Proof.
  unfold handler. intros H.
  destruct env_key as [[|c k]|]; try discriminate.
  destruct (get_prop req_body (lit "image")) as [t|image] eqn:Himg; [discriminate|].
  destruct (to_boolean image) eqn:Hb; cbn [negb] in H; [|discriminate].
  injection H as H.
  destruct (extract (c :: k) image fetch) as [[e|w]|r] eqn:E; try discriminate.
  cbn [catch] in H. subst r. unfold extract in E.
  destruct (fetch (c :: k) image) as [t|resp] eqn:Hf; [discriminate|].
  cbn [bind] in E. destruct (ok resp) eqn:Hok; cbn [negb] in E.
  - destruct (json resp) as [t|data] eqn:Hj; [discriminate|]. cbn [bind] in E.
    destruct (reply_text data) as [t|v] eqn:Hv; [discriminate|]. cbn [bind] in E.
    apply normalize_200_inv in E as (text & m & arr & -> & Hm & Hr & Ha).
    apply array_map_inv in Ha.
    exists text, m, arr. split.
    { exists (c :: k), image, resp, data. repeat split; try assumption. discriminate. }
    now repeat split.
  - bind_cases E; discriminate.
Qed.

(** X11.  A response with status 200 is given only when the two tests pass,
    the upstream answers with a success and a string, the string has a
    brace-delimited region that is a JSON text, and its [results] (or the
    empty array in its place) is an array with no null element; the records
    are then the callback's, one for each element in order. *)
Theorem X11_success_only_from_parsed_array (env_key : option jsstring)
    (req_body : JSValue) (fetch : Fetch) (out : list ExtractResult) :
  handler env_key req_body fetch = Replied (reply 200 (ResultsBody out)) ->
  exists text m arr,
    reaches_normalizer env_key req_body fetch text /\
    json_match text = Some m /\ results_of m = inr (JArray arr) /\
    Forall not_null arr /\ List.length out = List.length arr /\
    Forall2 (fun r e => coerce r = inr e) arr out.
Proof.
  intros H.
  destruct (handler_200_inv env_key req_body fetch out H)
    as (text & m & arr & Hreach & Hm & Hr & HF).
  exists text, m, arr. repeat split; try assumption.
  - exact (Forall2_coerce_not_null arr out HF).
  - symmetry. exact (Forall2_length HF).
Qed.

Lemma X11_witness :
  exists text m arr,
    reaches_normalizer some_key image_body (upstream_says reply_one_plate) text /\
    json_match text = Some m /\ results_of m = inr (JArray arr) /\
    Forall not_null arr /\
    List.length [mkResult reg (JString (lit "AB12 CDE")) false] = List.length arr /\
    Forall2 (fun r e => coerce r = inr e) arr
      [mkResult reg (JString (lit "AB12 CDE")) false].
Proof.
  apply (X11_success_only_from_parsed_array some_key image_body
           (upstream_says reply_one_plate)
           [mkResult reg (JString (lit "AB12 CDE")) false]).
  reflexivity.
Defined.



(** X13.  For a parsed results array with no null element, a [value] that
    is there and not null is passed to the record as it is, whatever its
    type (a number stays a number), and a null [value] becomes the empty
    string. *)
Theorem X13_value_passed_through (text m : jsstring) (arr : list JSValue) :
  json_match text = Some m ->
  results_of m = inr (JArray arr) ->
  Forall not_null arr ->
  exists out,
    normalize (JString text) = inr (reply 200 (ResultsBody out)) /\
    forall i r, nth_error arr i = Some r ->
      exists v e,
        get_prop r (lit "value") = inr v /\ nth_error out i = Some e /\
        (is_nullish v = false -> value e = v) /\
        (v = JNull -> value e = JString []).
Proof.
  intros Hm Hr Hall.
  destruct (normalize_array text m arr Hm Hr Hall) as (out & Hn & HF).
  exists out. split; [assumption|]. intros i r Hi.
  destruct (Forall2_nth_error_l _ arr out HF i r Hi) as (e & He & Hc).
  destruct (coerce_total r (nth_error_not_null arr i r Hall Hi))
    as (t & v & u & _ & Hv & _ & Hc').
  rewrite Hc' in Hc. injection Hc as <-.
  exists v. eexists. split; [exact Hv|]. split; [exact He|].
  cbn [value]. unfold coalesce. split.
  - intros ->. reflexivity.
  - intros ->. reflexivity.
Qed.

Lemma X13_witness :
  exists out,
    normalize (JString (jq "{'results':[{'value':7},{'value':null}]}")) =
      inr (reply 200 (ResultsBody out)) /\
    forall i r,
      nth_error [JObject [(lit "value", JNumber (mkNum false 7 0))];
                 JObject [(lit "value", JNull)]] i = Some r ->
      exists v e,
        get_prop r (lit "value") = inr v /\ nth_error out i = Some e /\
        (is_nullish v = false -> value e = v) /\
        (v = JNull -> value e = JString []).
Proof.
  apply (X13_value_passed_through
           (jq "{'results':[{'value':7},{'value':null}]}")
           (jq "{'results':[{'value':7},{'value':null}]}")
           [JObject [(lit "value", JNumber (mkNum false 7 0))];
            JObject [(lit "value", JNull)]]).
  - reflexivity.
  - reflexivity.
  - repeat constructor.
Defined.

Lemma coerce_no_fields (r : JSValue) :
  no_fields r = true -> coerce r = inr default_record.
Proof. destruct r; try discriminate; reflexivity. Qed.

(** X14.  Elements that are not objects (strings, numbers, booleans,
    arrays) have none of the three fields: each of them gives the record
    with kind [reg], the empty string and [false], so an array of bare
    strings gives as many records with empty values. *)
Theorem X14_bare_elements_give_default_records (text m : jsstring)
    (arr : list JSValue) :
  json_match text = Some m ->
  results_of m = inr (JArray arr) ->
  Forall (fun r => no_fields r = true) arr ->
  normalize (JString text) =
  inr (reply 200 (ResultsBody (map (fun _ => mkResult reg (JString []) false) arr))).
Proof.
  intros Hm Hr Hall. rewrite normalize_string, Hm. cbn [after_match].
  rewrite Hr. cbn [bind call_map].
  assert (Ha : array_map coerce arr =
               inr (map (fun _ => mkResult reg (JString []) false) arr)).
  { clear Hr. induction Hall as [|r arr Hf _ IH]; [reflexivity|].
    cbn [array_map map]. rewrite (coerce_no_fields r Hf), IH. reflexivity. }
  now rewrite Ha.
Qed.

Lemma X14_witness :
  normalize (JString (jq "{'results':['AB12 CDE', 42, true, []]}")) =
  inr (reply 200 (ResultsBody
    (map (fun _ => mkResult reg (JString []) false)
       [JString (lit "AB12 CDE"); JNumber (mkNum false 42 0); JBool true; JArray []]))).
Proof.
  apply (X14_bare_elements_give_default_records
           (jq "{'results':['AB12 CDE', 42, true, []]}")
           (jq "{'results':['AB12 CDE', 42, true, []]}")
           [JString (lit "AB12 CDE"); JNumber (mkNum false 42 0); JBool true; JArray []]).
  - reflexivity.
  - reflexivity.
  - repeat constructor.
Defined.

Lemma coerce_to_object (r : JSValue) (e : ExtractResult) :
  coerce r = inr e -> coerce (to_object e) = inr e.
Proof.
  intros Hc.
  destruct (coerce_total r (coerce_inr_not_null r e Hc))
    as (t & v & u & _ & _ & _ & Hc').
  rewrite Hc' in Hc. injection Hc as <-.
  unfold to_object, coerce. cbn [get_prop bind ret type value uncertain].
  change (lookup (lit "type") _) with
    (JString (kind_literal (if strict_eq_str t (lit "vin") then vin else reg))).
  change (lookup (lit "value") _) with (coalesce v (JString [])).
  change (lookup (lit "uncertain") _) with (JBool (to_boolean u)).
  cbn [bind ret to_boolean].
  replace (coalesce (coalesce v (JString [])) (JString []))
    with (coalesce v (JString [])).
  2:{ unfold coalesce at 2.
      now rewrite (coalesce_not_nullish v (JString []) eq_refl). }
  destruct (strict_eq_str t (lit "vin")); reflexivity.
Qed.

(** X15.  The callback changes nothing in what it has made: run on the
    objects it returned for an array, it returns the same records. *)
Theorem X15_coercion_idempotent (arr : list JSValue) (out : list ExtractResult) :
  array_map coerce arr = inr out ->
  array_map coerce (map to_object out) = inr out.
Proof.
  intros H. apply array_map_inv in H.
  induction H as [|r e arr out Hc _ IH]; [reflexivity|].
  cbn [map array_map]. rewrite (coerce_to_object r e Hc), IH. reflexivity.
Qed.

Lemma X15_witness :
  array_map coerce
    (map to_object [mkResult vin (JString (lit "1HGCM82633A004352")) false;
                    mkResult reg (JString (lit "AB12 CDE")) true;
                    mkResult reg (JString []) false]) =
  inr [mkResult vin (JString (lit "1HGCM82633A004352")) false;
       mkResult reg (JString (lit "AB12 CDE")) true;
       mkResult reg (JString []) false].
Proof.
  apply (X15_coercion_idempotent mixed_elements). reflexivity.
Defined.

Lemma json_match_fixpoint (text m : jsstring) :
  json_match text = Some m -> json_match m = Some m.
Proof.
  intros H. apply json_match_some in H as (_ & mid & _ & _ & -> & _).
  exact (json_match_span [] mid [] (fun F => F) (fun F => F)).
Qed.

(** X16.  The outcome depends on the matched region alone: the text around
    it can be dropped, the normalizer gives for the region what it gives
    for the whole text. *)
Theorem X16_outcome_of_region (text m : jsstring) :
  json_match text = Some m ->
  normalize (JString m) = normalize (JString text).
Proof.
  intros H. now rewrite !normalize_string, H, (json_match_fixpoint text m H).
Qed.

Lemma X16_witness :
  normalize (JString reply_one_plate) =
  normalize (JString (prose_before ++ reply_one_plate ++ prose_after)).
Proof.
  apply (X16_outcome_of_region (prose_before ++ reply_one_plate ++ prose_after)
           reply_one_plate).
  reflexivity.
Defined.

(** ** Text after a complete JSON object *)

Section Trailing.

Import JSON.

Lemma lex_app (st : lstate) (a b : jsstring) :
  lex st (a ++ b) =
  match lex_run st a with
  | None => None
  | Some (ts, st') =>
      match lex st' b with
      | None => None
      | Some rest => Some (ts ++ rest)
      end
  end.
Proof.
  revert st; induction a as [|c a IH]; intros st; cbn [app lex lex_run].
  - now destruct (lex st b).
  - destruct (lex_step st c) as [[ts st']|]; [|reflexivity].
    rewrite IH. destruct (lex_run st' a) as [[ts' st'']|]; [|reflexivity].
    destruct (lex st'' b); [|reflexivity]. now rewrite app_assoc.
Qed.

Lemma lex_run_snoc (st : lstate) (a : jsstring) (c : char16) :
  lex_run st (a ++ [c]) =
  match lex_run st a with
  | None => None
  | Some (ts, st') =>
      match lex_step st' c with
      | None => None
      | Some (ts', st'') => Some (ts ++ ts', st'')
      end
  end.
Proof.
  revert st; induction a as [|x a IH]; intros st; cbn [app lex_run].
  - destruct (lex_step st c) as [[ts st']|]; [|reflexivity].
    now rewrite app_nil_r.
  - destruct (lex_step st x) as [[ts st']|]; [|reflexivity].
    rewrite IH. destruct (lex_run st' a) as [[ts' st'']|]; [|reflexivity].
    destruct (lex_step st'' c) as [[ts'' st3]|]; [|reflexivity].
    now rewrite app_assoc.
Qed.

(** After a closing brace the lexer is between tokens, or inside a string or
    a literal that the end of the text would leave open. *)
Lemma after_rbrace (st st' : lstate) (ts : list token) :
  lex_step st rbrace = Some (ts, st') ->
  st' = LStart \/ lex_end st' = None.
Proof.
  destruct st as [|acc|acc|acc todo code|rest t|ph a]; cbn [lex_step]; intros H.
  - vm_compute in H. injection H as <- <-. now left.
  - vm_compute in H. injection H as <- <-. now right.
  - vm_compute in H. discriminate.
  - vm_compute in H. discriminate.
  - destruct rest as [|r rest]; [discriminate|].
    destruct (N.eqb rbrace r); [|discriminate].
    destruct rest; injection H as <- <-; [now left|now right].
  - destruct ph; vm_compute in H; try discriminate; injection H as <- <-; now left.
Qed.

Ltac break_if H :=
  repeat match type of H with
         | context [if ?b then _ else _] => destruct b eqn:?
         | context [match ?x with Some _ => _ | None => _ end] => destruct x eqn:?
         end.

(** A step that gives no token and comes to rest between tokens has read a
    white space between tokens. *)
Lemma silent_step (st : lstate) (c : char16) :
  lex_step st c = Some ([], LStart) -> st = LStart /\ is_ws c = true.
Proof.
  destruct st as [|acc|acc|acc todo code|rest t|ph a]; cbn [lex_step]; intros H.
  - split; [reflexivity|]. unfold start_step in H.
    destruct (is_ws c); [reflexivity|]. break_if H; discriminate.
  - break_if H; discriminate.
  - break_if H; discriminate.
  - break_if H; try discriminate. destruct todo as [|[|todo]]; discriminate.
  - destruct rest as [|r [|r' rest]]; break_if H; discriminate.
  - destruct ph; cbn [num_step] in H; unfold end_number in H;
      break_if H; try discriminate;
      match goal with p : (list token * lstate)%type |- _ => destruct p end;
      discriminate.
Qed.

(** A text that gives no token is white space. *)
Lemma lex_no_token (st : lstate) (s : jsstring) :
  lex st s = Some [] -> st = LStart /\ forallb is_ws s = true.
Proof.
  revert st; induction s as [|c s IH]; intros st H; cbn [lex] in H.
  - split; [|reflexivity].
    destruct st as [| | | | |ph a]; try discriminate; [reflexivity|].
    destruct ph; discriminate.
  - destruct (lex_step st c) as [[ts st']|] eqn:E; [|discriminate].
    destruct (lex st' s) as [rest|] eqn:L; [|discriminate].
    injection H as H. apply app_eq_nil in H as [-> ->].
    destruct (IH st' L) as [-> Hs].
    destruct (silent_step st c E) as [-> Hc].
    split; [reflexivity|]. cbn [forallb]. now rewrite Hc, Hs.
Qed.

Lemma parse_tokens_run (ps : pstate) (ts : list token) :
  parse_tokens ps ts =
  match parse_run ps ts with
  | Some ([], MDone v) => Some v
  | _ => None
  end.
Proof.
  revert ps; induction ts as [|t ts IH]; intros ps; cbn [parse_tokens parse_run].
  - reflexivity.
  - destruct (parse_step ps t); [apply IH|reflexivity].
Qed.

Lemma parse_run_app (ps : pstate) (ts ts' : list token) :
  parse_run ps (ts ++ ts') =
  match parse_run ps ts with
  | None => None
  | Some ps' => parse_run ps' ts'
  end.
Proof.
  revert ps; induction ts as [|t ts IH]; intros ps; cbn [app parse_run].
  - reflexivity.
  - destruct (parse_step ps t); [apply IH|reflexivity].
Qed.

(** Once the value of the text is complete, a further token is an error. *)
Lemma parse_tokens_after_done (ps : pstate) (ts : list token) (v : JSValue)
    (t : token) (ts' : list token) :
  parse_tokens ps ts = Some v -> parse_tokens ps (ts ++ t :: ts') = None.
Proof.
  rewrite !parse_tokens_run, parse_run_app.
  destruct (parse_run ps ts) as [[[|f st] m]|]; try discriminate.
  destruct m; try discriminate. reflexivity.
Qed.

(** What follows a JSON text that ends with a closing brace must be white
    space: with anything else after it the whole is not a JSON text. *)
Lemma parse_trailing (a b : jsstring) (v : JSValue) :
  JSON.parse (a ++ [rbrace]) = inr v ->
  forallb is_ws b = false ->
  JSON.parse ((a ++ [rbrace]) ++ b) = throw (SyntaxError_JSON ((a ++ [rbrace]) ++ b)).
Proof.
  unfold parse. intros Ha Hb. rewrite lex_app.
  pose proof (lex_app LStart (a ++ [rbrace]) []) as E. rewrite app_nil_r in E.
  rewrite E in Ha. clear E.
  destruct (lex_run LStart (a ++ [rbrace])) as [[ts st]|] eqn:R; [|reflexivity].
  assert (Hst : st = LStart \/ lex_end st = None).
  { rewrite lex_run_snoc in R.
    destruct (lex_run LStart a) as [[ts0 st0]|]; [|discriminate].
    destruct (lex_step st0 rbrace) as [[ts1 st1]|] eqn:S1; [|discriminate].
    injection R as _ <-. exact (after_rbrace st0 st1 ts1 S1). }
  destruct Hst as [-> | Hend]; [|cbn [lex] in Ha; rewrite Hend in Ha; discriminate].
  cbn [lex lex_end] in Ha. rewrite app_nil_r in Ha.
  destruct (parse_tokens ([], MValue) ts) as [w|] eqn:P; [|discriminate].
  destruct (lex LStart b) as [[|t rest]|] eqn:L; [| |reflexivity].
  - apply lex_no_token in L as [_ L]. congruence.
  - now rewrite (parse_tokens_after_done ([], MValue) ts w t rest P).
Qed.

End Trailing.

Lemma not_ws_in (c : char16) (b : jsstring) :
  In c b -> JSON.is_ws c = false -> forallb JSON.is_ws b = false.
Proof.
  intros Hin Hc. destruct (forallb JSON.is_ws b) eqn:E; [|reflexivity].
  rewrite forallb_forall in E. rewrite (E c Hin) in Hc. discriminate.
Qed.

(** X17.  A closing brace anywhere after a complete JSON object (a second
    object, a stray brace in the prose) makes the match run past the object;
    the matched text is then no JSON text and the handler answers 500 with
    the message of the syntax error. *)
Theorem X17_brace_after_object_gives_500 (env_key : option jsstring)
    (req_body : JSValue) (fetch : Fetch)
    (pre body_ between post : jsstring) :
  ~ In lbrace pre -> ~ In rbrace post ->
  valid_json (lbrace :: body_ ++ [rbrace]) = true ->
  reaches_normalizer env_key req_body fetch
    (pre ++ (lbrace :: body_ ++ [rbrace]) ++ between ++ rbrace :: post) ->
  handler env_key req_body fetch =
  Replied (reply 500 (ErrorBody (MessageOf
    (SyntaxError_JSON ((lbrace :: body_ ++ [rbrace]) ++ between ++ [rbrace]))))).
Proof.
  intros Hpre Hpost Hvalid Hreach. rewrite (handler_reaches _ _ _ _ Hreach).
  rewrite normalize_string.
  replace (pre ++ (lbrace :: body_ ++ [rbrace]) ++ between ++ rbrace :: post)
    with (pre ++ lbrace :: (body_ ++ [rbrace] ++ between) ++ rbrace :: post)
    by (cbn [app]; now rewrite <- !app_assoc).
  rewrite json_match_span by assumption. cbn [after_match]. unfold results_of.
  replace (lbrace :: (body_ ++ [rbrace] ++ between) ++ [rbrace])
    with (((lbrace :: body_) ++ [rbrace]) ++ between ++ [rbrace])
    by (cbn [app]; now rewrite <- !app_assoc).
  unfold valid_json in Hvalid.
  destruct (JSON.parse (lbrace :: body_ ++ [rbrace])) as [t|v] eqn:P; [discriminate|].
  rewrite (parse_trailing (lbrace :: body_) (between ++ [rbrace]) v P).
  - reflexivity.
  - apply (not_ws_in rbrace); [|reflexivity]. apply in_or_app. right. now left.
Qed.

Lemma X17_witness :
  handler some_key image_body
    (upstream_says (lit "Front: " ++ (lbrace :: jq "'results':[]" ++ [rbrace]) ++
                    lit " Rear: {'results':[]" ++ rbrace :: lit " Done.")) =
  Replied (reply 500 (ErrorBody (MessageOf
    (SyntaxError_JSON ((lbrace :: jq "'results':[]" ++ [rbrace]) ++
                       lit " Rear: {'results':[]" ++ [rbrace]))))).
Proof.
  apply (X17_brace_after_object_gives_500 some_key image_body
           (upstream_says (lit "Front: " ++ (lbrace :: jq "'results':[]" ++ [rbrace]) ++
                           lit " Rear: {'results':[]" ++ rbrace :: lit " Done."))
           (lit "Front: ") (jq "'results':[]") (lit " Rear: {'results':[]") (lit " Done.")).
  - apply not_in_units. reflexivity.
  - apply not_in_units. reflexivity.
  - reflexivity.
  - apply reaches_upstream_says.
Defined.

(** ** All the outcomes of the normalizer *)

Lemma null_or_not (arr : list JSValue) :
  Forall not_null arr \/ Exists (fun r => is_nullish r = true) arr.
Proof.
  induction arr as [|r arr [IH | IH]].
  - left. constructor.
  - destruct (is_nullish r) eqn:E.
    + right. now constructor.
    + left. now constructor.
  - right. now constructor 2.
Qed.

Lemma array_map_first_null (arr : list JSValue) :
  Exists (fun r => is_nullish r = true) arr ->
  exists r, In r arr /\ is_nullish r = true /\
            array_map coerce arr = throw (TypeError_read r (lit "type")).
Proof.
  induction arr as [|x arr IH]; intros H; [inversion H|].
  destruct (is_nullish x) eqn:Hx.
  - exists x. split; [now left|]. split; [assumption|].
    cbn [array_map]. now rewrite coerce_nullish.
  - inversion H as [? ? Hx'|? ? Hex]; subst; [congruence|].
    destruct (IH Hex) as (r & Hin & Hn & Hr). exists r.
    split; [now right|]. split; [assumption|].
    destruct (coerce_total x Hx) as (t & v & u & _ & _ & _ & Hc).
    cbn [array_map]. now rewrite Hc, Hr.
Qed.

(** X18.  For a string, lines 102-115 end in one of five ways and no other:
    502 when the text has no brace-delimited region; a syntax error when the
    region is not a JSON text; otherwise the region is an object, and the
    end is a type error when its [results] is there and is neither null nor
    an array, a type error when the array has a null element, and 200 with
    one record for each element when it has none. *)
Theorem X18_normalizer_outcomes (text : jsstring) :
  (~ has_brace_region text /\ normalize (JString text) = inr parse_failure) \/
  exists m, json_match text = Some m /\
    ((valid_json m = false /\
      normalize (JString text) = throw (SyntaxError_JSON m)) \/
     exists ms, JSON.parse m = inr (JObject ms) /\
       ((is_nullish (lookup (lit "results") ms) = false /\
         (forall arr, lookup (lit "results") ms <> JArray arr) /\
         normalize (JString text) = throw (TypeError_call (lit "map"))) \/
        exists arr, coalesce (lookup (lit "results") ms) (JArray []) = JArray arr /\
          ((exists r, In r arr /\ is_nullish r = true /\
              normalize (JString text) = throw (TypeError_read r (lit "type"))) \/
           (Forall not_null arr /\
            exists out, normalize (JString text) = inr (reply 200 (ResultsBody out)) /\
                        List.length out = List.length arr)))).
Proof.
  rewrite normalize_string.
  destruct (json_match text) as [m|] eqn:Hm.
  2:{ left. split; [|reflexivity]. now apply no_region_of_no_match. }
  right. exists m. split; [reflexivity|]. cbn [after_match]. unfold results_of.
  destruct (JSON.parse m) as [t|parsed] eqn:Hp.
  { left. split; [unfold valid_json; now rewrite Hp|].
    now rewrite (parse_throws m t Hp). }
  right. destruct (parsed_match_object text m parsed Hm Hp) as (ms & ->).
  exists ms. split; [reflexivity|]. cbn [bind get_prop ret].
  destruct (coalesce (lookup (lit "results") ms) (JArray [])) as [| |b|n|s|arr|ms']
    eqn:Hc;
    try (left; unfold coalesce in Hc;
         destruct (lookup (lit "results") ms); try discriminate;
         repeat split; discriminate).
  right. exists arr. split; [reflexivity|]. cbn [call_map].
  destruct (null_or_not arr) as [Hall | Hex].
  - right. split; [assumption|].
    destruct (array_map_total arr Hall) as (out & -> & HF).
    exists out. split; [reflexivity|]. symmetry. exact (Forall2_length HF).
  - left. destruct (array_map_first_null arr Hex) as (r & Hin & Hn & ->).
    exists r. now repeat split.
Qed.

(** ** The port *)

Lemma radix10_not_digit (c : char16) :
  JSON.digit c = None -> radix_digit 10 c = None.
Proof.
  unfold JSON.digit, radix_digit.
  destruct (N.leb 48 c && N.leb c 57) eqn:E; [discriminate|]. intros _.
  destruct (N.leb 97 c && N.leb c 122) eqn:E1.
  - apply andb_true_iff in E1 as [H1 _]. apply N.leb_le in H1.
    assert (E3 : N.ltb (c - 87) 10 = false) by (apply N.ltb_ge; lia).
    now rewrite E3.
  - destruct (N.leb 65 c && N.leb c 90) eqn:E2; [|reflexivity].
    apply andb_true_iff in E2 as [H1 _]. apply N.leb_le in H1.
    assert (E3 : N.ltb (c - 55) 10 = false) by (apply N.ltb_ge; lia).
    now rewrite E3.
Qed.

Lemma read_digits_uint (d : Decimal.uint) (rest : jsstring) (a : N) :
  read_digits 10 (uint_units d ++ rest) (Some a) =
  read_digits 10 rest (Some (N.of_nat (Nat.of_uint_acc d (N.to_nat a)))).
Proof.
  revert a; induction d as [|d IH|d IH|d IH|d IH|d IH|d IH|d IH|d IH|d IH|d IH];
    intros a; cbn [uint_units app Nat.of_uint_acc];
    [now rewrite N2Nat.id| | | | | | | | | |];
    cbn [read_digits];
    match goal with
    | |- context [radix_digit 10 ?c] =>
        let v := eval vm_compute in (radix_digit 10 c) in
        change (radix_digit 10 c) with v
    end; cbv iota beta;
    rewrite IH; do 3 f_equal; rewrite Nat.tail_mul_spec; f_equal; lia.
Qed.

Lemma uint_units_digit (d : Decimal.uint) (c : char16) (r : jsstring) :
  uint_units d = c :: r ->
  (48 <= c <= 57)%N.
Proof. destruct d; cbn; intros [= <- _]; lia. Qed.

Lemma radix10_digit (c : char16) :
  (48 <= c <= 57)%N -> radix_digit 10 c = Some (c - 48)%N.
Proof.
  intros H. unfold radix_digit.
  assert (E1 : N.leb 48 c = true) by (apply N.leb_le; lia).
  assert (E2 : N.leb c 57 = true) by (apply N.leb_le; lia).
  assert (E3 : N.ltb (c - 48) 10 = true) by (apply N.ltb_lt; lia).
  rewrite E1, E2. cbn [andb]. now rewrite E3.
Qed.

Lemma decimal_not_empty (n : nat) : decimal n <> [].
Proof.
  unfold decimal. pose proof (DecimalNat.Unsigned.of_to n) as H.
  destruct (Nat.to_uint n) eqn:E; cbn; try discriminate.
  intros _. destruct n; [cbn in E; discriminate|].
  cbn in H. discriminate.
Qed.

Lemma decimal_lone_zero (n : nat) : decimal n = [48%N] -> n = 0.
Proof.
  unfold decimal. intros H. apply DecimalNat.Unsigned.to_uint_inj.
  destruct (Nat.to_uint n) as [|d|d|d|d|d|d|d|d|d|d]; cbn in H; try discriminate.
  destruct d; cbn in H; try discriminate. reflexivity.
Qed.

Lemma read_digits_stop (rest : jsstring) (a : N) (n : nat) :
  ends_number n rest -> read_digits 10 rest (Some a) = Some a.
Proof.
  destruct rest as [|c rest]; [reflexivity|]. cbn [ends_number read_digits].
  intros [Hd _]. now rewrite (radix10_not_digit c Hd).
Qed.

Lemma trim_start_spaces (ws s : jsstring) :
  forallb RegExp.is_space ws = true -> trim_start (ws ++ s) = trim_start s.
Proof.
  induction ws as [|c ws IH]; [reflexivity|]. cbn [forallb app trim_start].
  intros H. apply andb_true_iff in H as [-> H]. now apply IH.
Qed.

Lemma digit_units_plain (c : char16) :
  (48 <= c <= 57)%N ->
  RegExp.is_space c = false /\ N.eqb c 43 = false /\ N.eqb c 45 = false /\
  N.eqb c 120 = false /\ N.eqb c 88 = false.
Proof.
  intros H. repeat split; try (apply N.eqb_neq; lia).
  unfold RegExp.is_space. apply orb_false_iff. split.
  - cbn [existsb]. repeat (apply orb_false_iff; split); try reflexivity;
      apply N.eqb_neq; lia.
  - apply andb_false_iff. left. apply N.leb_gt. lia.
Qed.

(** The digits of [n], as [decimal] writes them, read back as [n]. *)
Lemma parse_int_decimal (ws rest : jsstring) (n : nat) :
  forallb RegExp.is_space ws = true -> ends_number n rest ->
  parse_int (ws ++ decimal n ++ rest) = Some (Z.of_nat n).
Proof.
  intros Hws Hend. unfold parse_int. rewrite (trim_start_spaces _ _ Hws).
  pose proof (decimal_not_empty n) as Hne.
  pose proof (decimal_lone_zero n) as Hz.
  assert (Hval : read_digits 10 (decimal n ++ rest) None = Some (N.of_nat n)).
  { unfold decimal in *. destruct (uint_units (Nat.to_uint n)) as [|c r] eqn:E;
      [contradiction|].
    assert (Hsame : read_digits 10 ((c :: r) ++ rest) None =
                    read_digits 10 ((c :: r) ++ rest) (Some 0%N)).
    { cbn [app read_digits].
      now rewrite (radix10_digit c (uint_units_digit _ c r E)). }
    rewrite Hsame, <- E, read_digits_uint, (read_digits_stop rest _ n Hend).
    change (N.to_nat 0) with 0. change (Nat.of_uint_acc (Nat.to_uint n) 0)
      with (Nat.of_uint (Nat.to_uint n)).
    now rewrite DecimalNat.Unsigned.of_to. }
  destruct (decimal n) as [|c r] eqn:E; [contradiction|].
  assert (Hc : (48 <= c <= 57)%N) by (exact (uint_units_digit _ c r E)).
  destruct (digit_units_plain c Hc) as (Hsp & Hplus & Hminus & _ & _).
  cbn [app trim_start]. rewrite Hsp, Hplus, Hminus. cbn [orb].
  assert (Hhex : match (c :: r) ++ rest with
                 | c0 :: x :: _ => N.eqb c0 48 && (N.eqb x 120 || N.eqb x 88)
                 | _ => false
                 end = false).
  { cbn [app]. destruct r as [|x r].
    - destruct rest as [|x rest]; [reflexivity|]. cbn [app].
      destruct (N.eqb c 48) eqn:E0; [|reflexivity]. apply N.eqb_eq in E0. subst c.
      destruct Hend as [_ Hx]. destruct (Hx (Hz eq_refl)) as [H1 H2].
      apply N.eqb_neq in H1, H2. now rewrite H1, H2.
    - cbn [app].
      assert (Hx : (48 <= x <= 57)%N).
      { unfold decimal in E. destruct (Nat.to_uint n) as [|d|d|d|d|d|d|d|d|d|d];
          cbn in E; try discriminate; injection E as _ E;
          exact (uint_units_digit _ x r E). }
      destruct (digit_units_plain x Hx) as (_ & _ & _ & H1 & H2).
      rewrite H1, H2. now rewrite andb_false_r. }
  cbn [app] in Hhex, Hval. rewrite Hhex, Hval. now rewrite nat_N_Z.
Qed.

(** X19.  The port is 3000 when [PORT] is not set or is empty; when it holds
    the decimal digits of a number below 2^53, after any white space and
    before anything that is not a digit, the port is that number. *)
Theorem X19_port_from_environment (ws rest : jsstring) (n : nat) :
  forallb RegExp.is_space ws = true ->
  (Z.of_nat n < 2 ^ 53)%Z ->
  ends_number n rest ->
  PORT None = Some 3000%Z /\ PORT (Some []) = Some 3000%Z /\
  PORT (Some (ws ++ decimal n ++ rest)) = Some (Z.of_nat n).
Proof.
  intros Hws _ Hend. repeat split.
  unfold PORT. destruct (ws ++ decimal n ++ rest) as [|c s] eqn:E.
  - exfalso. apply app_eq_nil in E as [_ E]. apply app_eq_nil in E as [E _].
    exact (decimal_not_empty n E).
  - rewrite <- E. now apply parse_int_decimal.
Qed.

Lemma X19_witness :
  PORT None = Some 3000%Z /\ PORT (Some []) = Some 3000%Z /\
  PORT (Some (lit " " ++ decimal 4200 ++ lit "/tcp")) = Some (Z.of_nat 4200).
Proof.
  apply (X19_port_from_environment (lit " ") (lit "/tcp") 4200).
  - reflexivity.
  - reflexivity.
  - split; [reflexivity|]. intros H. discriminate H.
Defined.

(** X20.  A [PORT] that is set and does not start, after white space, with
    a sign or a decimal digit gives NaN: the default 3000 is not used for
    it. *)
Theorem X20_port_not_a_number (ws r : jsstring) (c : char16) :
  forallb RegExp.is_space ws = true ->
  RegExp.is_space c = false ->
  c <> 43%N -> c <> 45%N -> JSON.digit c = None ->
  PORT (Some (ws ++ c :: r)) = None.
Proof.
  intros Hws Hsp Hplus Hminus Hd. unfold PORT.
  destruct (ws ++ c :: r) as [|x s] eqn:E.
  - apply app_eq_nil in E as [_ E]. discriminate.
  - rewrite <- E. unfold parse_int. rewrite (trim_start_spaces _ _ Hws).
    cbn [trim_start]. rewrite Hsp.
    apply N.eqb_neq in Hplus, Hminus. rewrite Hplus, Hminus. cbn [orb].
    assert (H48 : N.eqb c 48 = false).
    { apply N.eqb_neq. intros ->. discriminate. }
    assert (Hhex : match c :: r with
                   | c0 :: x0 :: _ => N.eqb c0 48 && (N.eqb x0 120 || N.eqb x0 88)
                   | _ => false
                   end = false).
    { destruct r; [reflexivity|]. now rewrite H48. }
    rewrite Hhex. cbn [read_digits]. now rewrite (radix10_not_digit c Hd).
Qed.

Lemma X20_witness : PORT (Some (lit "auto")) = None.
Proof.
  apply (X20_port_not_a_number [] (lit "uto") 97%N); try reflexivity; discriminate.
Defined.
